(** * Atmospheric correction coefficients for a time series of scenes

    A shallow embedding of [ee-atmcorr-coefficients-timeseries.py] and the
    properties of its radiometric correction model.

    Conventions of the embedding.
    - Python floats are read as real numbers ([R]); every arithmetic
      operation is the exact one ([math.cos] is [cos], [math.pi] is [PI]).
      Python ints that enter float arithmetic are injected with [IZR].
    - A Python exception is a value of [PyError]; code that may raise
      returns a [PyResult], and sequencing stops at the first exception,
      as the source has no [try] anywhere.
    - Module-level constants ([DIRPATH], [NO_OF_BANDS], [KM]) are the
      fields of a [Globals] record; the outside world (the pickled lookup
      tables on disk, the Earth Engine catalogue, the atmospheric
      services) is an [Env] record. *)

From Stdlib Require Import Reals Machin Lra ZArith Ascii String DecimalNat DecimalString.
From stdpp Require Import base option list strings gmap.

Local Open Scope string_scope.

(** ** Exceptions and the result monad *)

Inductive PyError : Type :=
  | FileNotFoundError (path : string)
  | KeyError (key : string)
  | AttributeError (attr : string)
  | TypeError
  | IndexError
  | NameError (name : string)
  | EEException
  | OutOfDomainError.
(* [OutOfDomainError] is the error kind of the design document; no
   statement of the source raises it. *)

Inductive PyResult (A : Type) : Type :=
  | Ok (a : A)
  | Raise (e : PyError).
Arguments Ok {A} a.
Arguments Raise {A} e.

#[global] Instance py_ret : MRet PyResult := fun A a => Ok a.

#[global] Instance py_bind : MBind PyResult := fun A B f m =>
  match m with
  | Ok a => f a
  | Raise e => Raise e
  end.

(** A [for] loop whose body may raise: the state is threaded through the
    iterations and the first exception leaves the loop. *)
Fixpoint for_each {A S} (body : S → A → PyResult S) (s : S) (xs : list A)
  : PyResult S :=
  match xs with
  | [] => Ok s
  | x :: xs' => s' ← body s x; for_each body s' xs'
  end.

(** ** Strings: [str(int)] and [str.zfill] *)

Definition str (n : nat) : string := NilEmpty.string_of_uint (Nat.to_uint n).

Fixpoint zeros (k : nat) : string :=
  match k with
  | O => ""
  | S k' => String "0"%char (zeros k')
  end.

Definition zfill (width : nat) (s : string) : string :=
  match s with
  | String "+"%char rest => String "+"%char (zeros (width - String.length s) +:+ rest)
  | String "-"%char rest => String "-"%char (zeros (width - String.length s) +:+ rest)
  | _ => zeros (width - String.length s) +:+ s
  end.

(** ** Data *)

(** [AtmParams = namedtuple("AtmParams", ("doy", "solar_z", "h2o", "o3", "aot"))] *)
Record AtmParams : Type := mkAtmParams {
  doy : Z;
  solar_z : R;
  h2o : R;
  o3 : R;
  aot : R
}.

(** The two shapes of object that the functions of the file are written
    against: the named tuple built by [atm_corr_image], read with
    [obj.field], and a dictionary of numbers, read with [obj["field"]]. *)
Inductive PyObj : Type :=
  | NamedTuple (p : AtmParams)
  | Dict (d : gmap string R).

(** [obj.doy], [obj.solar_z], ...: defined on a named tuple; a [dict]
    has no such attribute. *)
Definition getattr {A} (field : AtmParams → A) (name : string) (obj : PyObj)
  : PyResult A :=
  match obj with
  | NamedTuple p => Ok (field p)
  | Dict _ => Raise (AttributeError name)
  end.

(** [obj[key]] with a string key: a lookup in a [dict]; on a tuple
    (named or not) Python raises [TypeError], tuple indices being
    integers or slices. *)
Definition getitem (obj : PyObj) (key : string) : PyResult R :=
  match obj with
  | NamedTuple _ => Raise TypeError
  | Dict d => match d !! key with
              | Some v => Ok v
              | None => Raise (KeyError key)
              end
  end.

(** [d[key]] on a genuine dictionary (the [imageInfo] properties). *)
Definition dict_get (d : gmap string R) (key : string) : PyResult R :=
  match d !! key with
  | Some v => Ok v
  | None => Raise (KeyError key)
  end.

(** An interpolated lookup table, as unpickled: a callable of
    (solar zenith, water vapour, ozone, aerosol optical thickness,
    altitude) returning the pair [(a, b)]. *)
Abbreviation iLUT := (R → R → R → R → R → R * R)%type (only parsing).

Record Globals : Type := mkGlobals {
  DIRPATH : string;
  NO_OF_BANDS : nat;
  KM : R
}.

(** ** [get_corr_coef] *)

Section GetCorrCoef.
Variable G : Globals.
(** The lookup-table files: path to unpickled table. *)
Variable files : gmap string iLUT.

(** [with open(filepath, "rb") as f: pickle.load(f)] *)
Definition load_ilut (filepath : string) : PyResult iLUT :=
  match files !! filepath with
  | Some t => Ok t
  | None => Raise (FileNotFoundError filepath)
  end.

(** [[str(i).zfill(2) for i in range(1, NO_OF_BANDS + 1)]] *)
Definition band_nums : list string :=
  map (fun img_idx => zfill 2 (str img_idx)) (seq 1 (NO_OF_BANDS G)).

Definition ilut_path (band : string) : string :=
  DIRPATH G +:+ "S2A_MSI_" +:+ band +:+ ".ilut".

(** The expression bound to [elliptical_orbit_correction] in the loop
    body, with the attribute access it starts from. *)
Definition elliptical_orbit_correction (atmParams : PyObj) : PyResult R :=
  d ← getattr doy "doy" atmParams;
  Ok (0.03275104 * cos (IZR d / 59.66638337) + 0.96804905)%R.

(** One iteration of [for band in band_nums]. *)
Definition get_corr_coef_body (atmParams : PyObj)
    (corr_coefs : list (R * R)) (band : string) : PyResult (list (R * R)) :=
  let filepath := ilut_path band in
  iluTable ← load_ilut filepath;
  sz ← getattr solar_z "solar_z" atmParams;
  wv ← getattr h2o "h2o" atmParams;
  oz ← getattr o3 "o3" atmParams;
  ao ← getattr aot "aot" atmParams;
  let '(a, b) := iluTable sz wv oz ao (KM G) in
  k ← elliptical_orbit_correction atmParams;
  let a := (a * k)%R in
  let b := (b * k)%R in
  Ok (corr_coefs ++ [(a, b)])%list.

Definition get_corr_coef (atmParams : PyObj) : PyResult (list (R * R)) :=
  for_each (get_corr_coef_body atmParams) [] band_nums.

End GetCorrCoef.

(** ** [toa_to_rad_multiplier] *)

(** [math.radians] *)
Definition radians (x : R) : R := (x * (PI / 180))%R.

Definition toa_to_rad_multiplier (bandname : string) (imageInfo : gmap string R)
    (atmParams : PyObj) : PyResult R :=
  ESUN ← dict_get imageInfo ("SOLAR_IRRADIANCE_" +:+ bandname);
  sz ← getitem atmParams "solar_z";
  let solar_angle_correction := cos (radians sz) in
  dy ← getitem atmParams "doy";
  let d := (1 - 0.01672 * cos (0.9856 * (dy - 4)))%R in
  let multiplier := (ESUN * solar_angle_correction / (PI * d ^ 2))%R in
  Ok multiplier.

(** ** Images

    An Earth Engine image is kept as its named bands, a band as the list
    of its pixel values.  An arithmetic method whose right operand is a
    number or a constant image ([ee.Image.constant(c)]) acts on every
    pixel of every band. *)

Abbreviation Image := (list (string * list R)) (only parsing).

Definition Image_map (f : R → R) (img : Image) : Image :=
  map (fun band => (band.1, map f band.2)) img.

Definition Image_divide (img : Image) (c : R) : Image :=
  Image_map (fun v => v / c)%R img.
Definition Image_multiply (img : Image) (c : R) : Image :=
  Image_map (fun v => v * c)%R img.
Definition Image_subtract (img : Image) (c : R) : Image :=
  Image_map (fun v => v - c)%R img.

Definition Image_bandNames (img : Image) : list string := map fst img.

(** [img.select(name)] *)
Definition Image_select (img : Image) (name : string) : Image :=
  filter (fun band => band.1 = name) img.

(** [img.select(i0, i1, ...)] with band indexes. *)
Definition Image_select_indices (img : Image) (idxs : list nat) : Image :=
  omap (fun i => img !! i) idxs.

Definition Image_addBands (img extra : Image) : Image := (img ++ extra)%list.

(** [xs[i]] on a Python list. *)
Definition list_index {A} (xs : list A) (i : nat) : PyResult A :=
  match xs !! i with
  | Some x => Ok x
  | None => Raise IndexError
  end.

(** ** [atm_corr_band] *)

Section AtmCorrBand.
Variable G : Globals.
Variable files : gmap string iLUT.
(** The image that [ee.Image()] denotes. *)
Variable ee_Image_blank : Image.

(** The radiance band and the linear correction of one band
    (the three assignments that end in [surface_refl]). *)
Definition surface_refl (old_image : Image) (bandname : string)
    (img_to_rad_multiplier a b : R) : Image :=
  let img_rad := Image_multiply (Image_select old_image bandname) img_to_rad_multiplier in
  let const_img_a := a in
  let const_img_b := b in
  Image_divide (Image_subtract img_rad const_img_a) const_img_b.

(** One iteration of [for ii in range(NO_OF_BANDS)]. *)
Definition atm_corr_band_body (old_image : Image) (bandnames : list string)
    (imageInfo : gmap string R) (atmParams : PyObj)
    (cor_coeff_list : list (R * R)) (new_image : Image) (ii : nat)
  : PyResult Image :=
  bandname ← list_index bandnames ii;
  img_to_rad_multiplier ← toa_to_rad_multiplier bandname imageInfo atmParams;
  coef ← list_index cor_coeff_list ii;
  Ok (Image_addBands new_image
        (surface_refl old_image bandname img_to_rad_multiplier coef.1 coef.2)).

Definition atm_corr_band (image : Image) (imageInfo : gmap string R)
    (atmParams : PyObj) : PyResult Image :=
  let old_image := Image_divide image 10000 in
  let new_image := ee_Image_blank in
  cor_coeff_list ← get_corr_coef G files atmParams;
  let bandnames := Image_bandNames old_image in
  new_image ← for_each
    (atm_corr_band_body old_image bandnames imageInfo atmParams cor_coeff_list)
    new_image (seq 0 (NO_OF_BANDS G));
  Ok (Image_select_indices new_image (seq 0 (NO_OF_BANDS G))).

End AtmCorrBand.

(** ** The outside world *)

(** One element of [S2List]: the properties dictionary of its
    [getInfo()] and its bands. *)
Record Scene : Type := mkScene {
  properties : gmap string R;
  raster : Image
}.

Record Env : Type := mkEnv {
  S2List : list Scene;
  ilut_files : gmap string iLUT;
  ee_Image : Image;
  (** [datetime.utcfromtimestamp(t).timetuple().tm_yday] *)
  utc_yday : R → Z;
  (** [str(datetime.utcfromtimestamp(t)).rsplit(sep=" ")[0]] *)
  utc_date : R → string;
  (** [Atmospheric.water(GEOM, ee.Date(date)).getInfo()] and its siblings *)
  Atmospheric_water : string → PyResult R;
  Atmospheric_ozone : string → PyResult R;
  Atmospheric_aerosol : string → PyResult R
}.

(** ** [atm_corr_image] *)

Definition atm_corr_image (E : Env) (imageInfo : gmap string R) : PyResult AtmParams :=
  ms ← dict_get imageInfo "system:time_start";
  let scene_date := (ms / 1000)%R in
  let dt1 := utc_date E scene_date in
  let d := utc_yday E scene_date in
  sz ← dict_get imageInfo "MEAN_SOLAR_ZENITH_ANGLE";
  wv ← Atmospheric_water E dt1;
  oz ← Atmospheric_ozone E dt1;
  ao ← Atmospheric_aerosol E dt1;
  Ok (mkAtmParams d sz wv oz ao).

(** ** The batch loop and the end of the script *)

(** An element of the [ee.List] of corrected images: the number it is
    seeded with, or an image. *)
Inductive EEElement : Type :=
  | EENumber (n : Z)
  | EEImage (img : Image).

(** [ee.batch.Export.image.toDrive(...)]; the other keyword arguments
    are the same constants for every task. *)
Record Task : Type := mkTask {
  task_image : Image;
  fileNamePrefix : string
}.

(** The module-level variables the loop assigns.  [EXPORT] is unbound
    until the loop body has run once. *)
Record DriverState : Type := mkDriverState {
  corrected_images : list EEElement;
  export_list : list Task;
  coeff_list : list (list (R * R));
  EXPORT : option bool
}.

(** What the script leaves behind: the contents of [coeff_list.txt], the
    final [corrected_images], and the export tasks it started. *)
Record Output : Type := mkOutput {
  report : list (list (R * R));
  final_images : list EEElement;
  started : list Task
}.

Section Driver.
Variable G : Globals.
Variable E : Env.
(** The constant assigned to [EXPORT] in the loop body. *)
Variable flag : bool.

Definition NO_OF_IMAGES : nat := length (S2List E).

(** [ee.List.get(i)] *)
Definition ee_List_get {A} (xs : list A) (i : nat) : PyResult A :=
  match xs !! i with
  | Some x => Ok x
  | None => Raise EEException
  end.

Definition init_state : DriverState :=
  mkDriverState [EENumber 0] [] [] None.

(** One iteration of [for img_idx in range(NO_OF_IMAGES)]. *)
Definition driver_body (st : DriverState) (img_idx : nat) : PyResult DriverState :=
  scene ← ee_List_get (S2List E) img_idx;
  let img_info_properties := properties scene in
  atm_vars ← atm_corr_image E img_info_properties;
  corr_coeffs ← get_corr_coef G (ilut_files E) (NamedTuple atm_vars);
  let coeffs := (coeff_list st ++ [corr_coeffs])%list in
  if flag then
    img ← atm_corr_band G (ilut_files E) (ee_Image E)
            (raster scene) img_info_properties (NamedTuple atm_vars);
    let export := mkTask img ("sen2_" +:+ str img_idx) in
    Ok (mkDriverState (corrected_images st ++ [EEImage img])%list
                      (export_list st ++ [export])%list
                      coeffs (Some flag))
  else
    Ok (mkDriverState (corrected_images st) (export_list st) coeffs (Some flag)).

Definition batch_loop : PyResult DriverState :=
  for_each driver_body init_state (seq 0 NO_OF_IMAGES).

(** [ee.List.slice(1)] *)
Definition slice1 {A} (xs : list A) : list A := drop 1 xs.

(** The whole script from the loop on: the loop, [slice(1)], the
    [if EXPORT:] that starts the tasks, and the report. *)
Definition main : PyResult Output :=
  st ← batch_loop;
  let corrected := slice1 (corrected_images st) in
  export ← match EXPORT st with
           | Some b => Ok b
           | None => Raise (NameError "EXPORT")
           end;
  let tasks := if (export : bool) then export_list st else [] in
  Ok (mkOutput (coeff_list st) corrected tasks).

End Driver.

(** * Notions used in the statements *)

Local Open Scope list_scope.
Local Open Scope R_scope.

(** The factor as a function of the day of year alone. *)
Definition orbit_factor (day_of_year : Z) : R :=
  0.03275104 * cos (IZR day_of_year / 59.66638337) + 0.96804905.

(** What one band contributes: the table's pair, both components scaled
    by the orbit factor. *)
Definition scaled_pair (G : Globals) (p : AtmParams) (t : iLUT) : R * R :=
  let '(a, b) := t (solar_z p) (h2o p) (o3 p) (aot p) (KM G) in
  (a * orbit_factor (doy p), b * orbit_factor (doy p)).

(** The file of band number [i] (counted from 1) holds table [t]. *)
Definition band_file (G : Globals) (files : gmap string iLUT) (i : nat) (t : iLUT) : Prop :=
  files !! ilut_path G (zfill 2 (str i)) = Some t.


(** [get_corr_coef] with the orbit factor computed once, before the
    loop over the bands, instead of once per band. *)
Definition get_corr_coef_hoisted_body (G : Globals) (files : gmap string iLUT)
    (atmParams : PyObj) (k : R) (corr_coefs : list (R * R)) (band : string)
  : PyResult (list (R * R)) :=
  let filepath := ilut_path G band in
  iluTable ← load_ilut files filepath;
  sz ← getattr solar_z "solar_z" atmParams;
  wv ← getattr h2o "h2o" atmParams;
  oz ← getattr o3 "o3" atmParams;
  ao ← getattr aot "aot" atmParams;
  let '(a, b) := iluTable sz wv oz ao (KM G) in
  Ok (corr_coefs ++ [(a * k, b * k)]).

Definition get_corr_coef_hoisted (G : Globals) (files : gmap string iLUT)
    (atmParams : PyObj) : PyResult (list (R * R)) :=
  k ← elliptical_orbit_correction atmParams;
  for_each (get_corr_coef_hoisted_body G files atmParams k) [] (band_nums G).

(** ** Sample inputs *)

Definition table_1 : iLUT := fun sz wv oz ao km => (sz + wv, oz + ao + km).
Definition table_2 : iLUT := fun sz wv oz ao km => (2, 4).

Definition globals_2 : Globals := mkGlobals "d/" 2 (1 / 2).

Definition files_2 : gmap string iLUT :=
  {[ "d/S2A_MSI_01.ilut" := table_1; "d/S2A_MSI_02.ilut" := table_2 ]}.

Definition params_day1 : AtmParams := mkAtmParams 1 30 2 (3 / 10) (1 / 10).

(** Modelled from the spec: the inverse [recover] of the surface
    reflectance transform, which the testable properties name and the
    source does not contain.  Given the multiplier [m] and the
    coefficients [(a, b)] it undoes the division by [b], the subtraction
    of [a], the multiplication by [m] and the scaling by [1 / 10000]. *)
Definition recover (surface : Image) (m a b : R) : Image :=
  Image_multiply (Image_divide (Image_map (fun v => v * b + a) surface) m) 10000.

Definition image_2 : Image := [("B1", [1200; 800]); ("B2", [400; 10000])].

Definition info_2 : gmap string R :=
  {[ "SOLAR_IRRADIANCE_B1" := 1959; "SOLAR_IRRADIANCE_B2" := 1824 ]}.

Definition atm_dict : gmap string R := {[ "solar_z" := 30; "doy" := IZR 1 ]}.

(** ** Notions for the batch driver *)

(** The coefficients the loop computes for a scene, and the corrected
    image it builds for it when [EXPORT] is set. *)
Definition scene_coeffs (G : Globals) (E : Env) (scene : Scene)
    (coefs : list (R * R)) : Prop :=
  ∃ p, atm_corr_image E (properties scene) = Ok p ∧
       get_corr_coef G (ilut_files E) (NamedTuple p) = Ok coefs.

Definition scene_image (G : Globals) (E : Env) (scene : Scene) (img : Image) : Prop :=
  ∃ p, atm_corr_image E (properties scene) = Ok p ∧
       atm_corr_band G (ilut_files E) (ee_Image E) (raster scene)
         (properties scene) (NamedTuple p) = Ok img.

(** Modelled from the spec: a band lookup table with the valid
    interpolation domain that the design document attaches to it.  The
    source holds only the callable [table_call]; nothing in it reads a
    domain. *)
Record BandLookupTable : Type := mkBandLookupTable {
  table_call : iLUT;
  in_domain : R → R → R → R → R → Prop
}.

Definition out_of_every_domain (G : Globals) (tables : list BandLookupTable)
    (p : AtmParams) : Prop :=
  Forall (fun t => ¬ in_domain t (solar_z p) (h2o p) (o3 p) (aot p) (KM G)) tables.

(** Modelled from the spec: the treatment of out-of-domain scenes that
    the design document asks for.  A scene outside every table's domain
    fails with [OutOfDomainError], and the batch still ends with a report,
    which has no entry for that scene. *)
Definition skips_out_of_domain (G : Globals) (E : Env)
    (tables : list BandLookupTable) : Prop :=
  ∀ i scene p,
    S2List E !! i = Some scene →
    atm_corr_image E (properties scene) = Ok p →
    out_of_every_domain G tables p →
    get_corr_coef G (ilut_files E) (NamedTuple p) = Raise OutOfDomainError ∧
    ∃ out, main G E false = Ok out ∧
           (length (report out) < length (S2List E))%nat.

(** Every band file of [G] holds the same table [t]. *)
Definition uniform_files (G : Globals) (t : iLUT) : gmap string iLUT :=
  list_to_map ((fun band => (ilut_path G band, t)) <$> band_nums G).

(** ** Sample batches *)

Definition scene_a : Scene :=
  mkScene {[ "system:time_start" := 1479513600000;
             "MEAN_SOLAR_ZENITH_ANGLE" := 30;
             "SOLAR_IRRADIANCE_B1" := 1959;
             "SOLAR_IRRADIANCE_B2" := 1824 ]}
          image_2.

(** A scene with the sun below the horizon. *)
Definition scene_b : Scene :=
  mkScene {[ "system:time_start" := 1479600000000;
             "MEAN_SOLAR_ZENITH_ANGLE" := 100;
             "SOLAR_IRRADIANCE_B1" := 1959;
             "SOLAR_IRRADIANCE_B2" := 1824 ]}
          image_2.

Definition env_of (scenes : list Scene) (files : gmap string iLUT) : Env :=
  mkEnv scenes files []
        (fun t => 324%Z) (fun t => "2016-11-19")
        (fun date => Ok 2) (fun date => Ok (3 / 10)) (fun date => Ok (1 / 10)).

Definition params_a : AtmParams := mkAtmParams 324 30 2 (3 / 10) (1 / 10).
Definition params_b : AtmParams := mkAtmParams 324 100 2 (3 / 10) (1 / 10).

Definition env_2 : Env := env_of [scene_a; scene_b] files_2.

(** Tables valid up to a solar zenith angle of 90 degrees. *)
Definition tables_2 : list BandLookupTable :=
  [ mkBandLookupTable table_1 (fun sz wv oz ao km => 0 <= sz <= 90);
    mkBandLookupTable table_2 (fun sz wv oz ao km => 0 <= sz <= 90) ].

(** The constants of the source file, with the altitude left open, and a
    one-scene batch with the thirteen bands of the sensor. *)
Definition globals_src (km : R) : Globals :=
  mkGlobals "./files/iLUTs/S2A_MSI/Continental/view_zenith_0/" 13 km.

Definition bands_src : list string :=
  ["B1"; "B2"; "B3"; "B4"; "B5"; "B6"; "B7"; "B8"; "B8A"; "B9"; "B10";
   "B11"; "B12"]%string.

Definition scene_src : Scene :=
  mkScene (<[ "system:time_start" := 1479513600000 ]>
             (<[ "MEAN_SOLAR_ZENITH_ANGLE" := 30 ]>
                (list_to_map
                   ((fun name => ("SOLAR_IRRADIANCE_" +:+ name, 1959)) <$> bands_src))))
          ((fun name => (name, [1200; 800])) <$> bands_src).

Definition env_src : Env :=
  env_of [scene_src] (uniform_files (globals_src (1 / 20)) table_1).

Definition coeffs_2 : list (list (R * R)) :=
  [ map (scaled_pair globals_2 params_a) [table_1; table_2];
    map (scaled_pair globals_2 params_b) [table_1; table_2] ].

(** ** Notions for the further properties *)

(** Reading a decimal label back as a number, as [int(label)] does:
    leading zeros do not count. *)
Definition int_of_str (s : string) : option nat :=
  Nat.of_uint <$> NilEmpty.uint_of_string s.

(** The band files of [G] filled from a list of tables: table [i] is
    pickled into the file of band [i + 1]. *)
Definition store_tables (G : Globals) (tables : list iLUT) : gmap string iLUT :=
  list_to_map (zip (ilut_path G <$> band_nums G) tables).

(** The coefficient computation of a scene raises [e]: either the
    retrieval of its parameters or [get_corr_coef] does. *)
Definition scene_fails (G : Globals) (E : Env) (scene : Scene) (e : PyError) : Prop :=
  atm_corr_image E (properties scene) = Raise e ∨
  ∃ p, atm_corr_image E (properties scene) = Ok p ∧
       get_corr_coef G (ilut_files E) (NamedTuple p) = Raise e.

(** A scene whose properties lack the solar zenith angle. *)
Definition scene_no_zenith : Scene :=
  mkScene {[ "system:time_start" := 1479600000000 ]} image_2.
(** * Properties *)

Example band_nums_13 :
  band_nums (mkGlobals "d/" 13 0) =
  ["01"; "02"; "03"; "04"; "05"; "06"; "07"; "08"; "09"; "10"; "11"; "12"; "13"].
Proof. reflexivity. Qed.

(** ** The result monad and [for_each] *)

Lemma py_bind_ok {A B} (a : A) (k : A → PyResult B) :
  (Ok a ≫= k) = k a.
Proof. reflexivity. Qed.

Lemma for_each_ext {A S} (f g : S → A → PyResult S) (xs : list A) (s : S) :
  (∀ s' x, x ∈ xs → f s' x = g s' x) →
  for_each f s xs = for_each g s xs.
Proof.
  revert s. induction xs as [|x xs IH]; intros s Hfg; [reflexivity|].
  simpl. rewrite (Hfg s x) by apply list_elem_of_here.
  destruct (g s x) as [s'|e]; [|reflexivity].
  rewrite !py_bind_ok. apply IH. intros s'' y Hy. apply Hfg.
  by apply list_elem_of_further.
Qed.

(** A loop whose every iteration appends one element to its accumulator
    builds the accumulator extended by those elements, in order. *)
Lemma for_each_append {A B} (f : list B → A → PyResult (list B))
    (xs : list A) (ys acc : list B) :
  Forall2 (fun x y => ∀ acc', f acc' x = Ok (acc' ++ [y])) xs ys →
  for_each f acc xs = Ok (acc ++ ys).
Proof.
  intros H. revert acc. induction H as [|x y xs ys Hxy _ IH]; intros acc.
  - simpl. by rewrite app_nil_r.
  - simpl. rewrite Hxy, py_bind_ok, IH. by rewrite <- app_assoc.
Qed.

(** ** The orbit correction factor *)

Lemma elliptical_orbit_correction_namedtuple (p : AtmParams) :
  elliptical_orbit_correction (NamedTuple p) = Ok (orbit_factor (doy p)).
Proof. reflexivity. Qed.

Lemma orbit_factor_bounds (d : Z) :
  0.96804905 - 0.03275104 <= orbit_factor d <= 0.96804905 + 0.03275104.
Proof.
  unfold orbit_factor.
  pose proof (COS_bound (IZR d / 59.66638337)) as [Hlo Hhi].
  split; lra.
Qed.

(** ** [get_corr_coef] on a named tuple *)

Lemma get_corr_coef_body_namedtuple G files p acc band t :
  files !! ilut_path G band = Some t →
  get_corr_coef_body G files (NamedTuple p) acc band
  = Ok (acc ++ [scaled_pair G p t])%list.
Proof.
  intros Hf. unfold get_corr_coef_body, load_ilut, scaled_pair. rewrite Hf.
  simpl. destruct (t (solar_z p) (h2o p) (o3 p) (aot p) (KM G)) as [a b].
  reflexivity.
Qed.

Lemma get_corr_coef_body_missing G files obj acc band :
  files !! ilut_path G band = None →
  get_corr_coef_body G files obj acc band
  = Raise (FileNotFoundError (ilut_path G band)).
Proof.
  intros Hf. unfold get_corr_coef_body, load_ilut. by rewrite Hf.
Qed.

Lemma get_corr_coef_namedtuple G files p (tables : list iLUT) :
  length tables = NO_OF_BANDS G →
  (∀ i t, tables !! i = Some t → band_file G files (S i) t) →
  get_corr_coef G files (NamedTuple p) = Ok (map (scaled_pair G p) tables).
Proof.
  intros Hlen Hfiles. unfold get_corr_coef.
  rewrite (for_each_append _ _ (map (scaled_pair G p) tables)); [done|].
  unfold band_nums. apply Forall2_fmap, Forall2_same_length_lookup.
  split; [by rewrite length_seq|].
  intros i n t Hn Ht acc. apply lookup_seq in Hn as [-> _].
  apply get_corr_coef_body_namedtuple. by apply Hfiles.
Qed.

(** ** Claims on the coefficient builder *)

(** C1. For every atmospheric-parameter record and every sequence of band
    lookup tables stored in the band files, [get_corr_coef] returns one
    pair per band, in the order of the tables: at position [i] the pair
    [(a * k, b * k)], where [(a, b)] is table [i] evaluated at
    (solar zenith, water vapour, ozone, aerosol optical thickness, [KM])
    and [k] is the orbit correction of the record's day of year. *)
Theorem get_corr_coef_per_band (G : Globals) (files : gmap string iLUT)
    (p : AtmParams) (tables : list iLUT) :
  length tables = NO_OF_BANDS G →
  (∀ i t, tables !! i = Some t → band_file G files (S i) t) →
  ∃ coefs,
    get_corr_coef G files (NamedTuple p) = Ok coefs ∧
    length coefs = length tables ∧
    ∀ i t, tables !! i = Some t →
      coefs !! i =
        Some (let '(a, b) := t (solar_z p) (h2o p) (o3 p) (aot p) (KM G) in
              let k := 0.03275104 * cos (IZR (doy p) / 59.66638337) + 0.96804905 in
              (a * k, b * k)).
Proof.
  intros Hlen Hfiles. exists (map (scaled_pair G p) tables).
  split; [by apply get_corr_coef_namedtuple|].
  split; [by rewrite length_map|].
  intros i t Ht. rewrite list_lookup_fmap, Ht. simpl. f_equal.
Qed.

(** C3. For a day of year in [1, 366] the orbit correction is computed
    without an exception and equals
    [0.03275104 * cos (day / 59.66638337) + 0.96804905]; it is a function
    of the record alone. *)
Theorem elliptical_orbit_correction_formula (p : AtmParams) :
  (1 <= doy p <= 366)%Z →
  elliptical_orbit_correction (NamedTuple p)
  = Ok (0.03275104 * cos (IZR (doy p) / 59.66638337) + 0.96804905).
Proof. intros _. reflexivity. Qed.

(** C6. For a day of year in [1, 366] the orbit correction lies in
    [0.935, 1.001]. *)
Theorem elliptical_orbit_correction_range (p : AtmParams) :
  (1 <= doy p <= 366)%Z →
  ∃ k, elliptical_orbit_correction (NamedTuple p) = Ok k ∧ 0.935 <= k <= 1.001.
Proof.
  intros _. exists (orbit_factor (doy p)).
  split; [apply elliptical_orbit_correction_namedtuple|].
  pose proof (orbit_factor_bounds (doy p)). lra.
Qed.

Lemma get_corr_coef_hoisted_body_eq G files p acc band :
  get_corr_coef_body G files (NamedTuple p) acc band
  = get_corr_coef_hoisted_body G files (NamedTuple p) (orbit_factor (doy p)) acc band.
Proof.
  unfold get_corr_coef_body, get_corr_coef_hoisted_body.
  destruct (load_ilut files (ilut_path G band)) as [t|e]; [|reflexivity].
  simpl. by destruct (t (solar_z p) (h2o p) (o3 p) (aot p) (KM G)).
Qed.

(** C9. The orbit factor depends on the day of year only: for every
    record, band count and set of band files, computing it once before
    the loop gives the same result as [get_corr_coef], which recomputes
    it in every iteration (the same list, or the same exception). *)
Theorem get_corr_coef_hoisted_eq (G : Globals) (files : gmap string iLUT)
    (p : AtmParams) :
  get_corr_coef_hoisted G files (NamedTuple p) = get_corr_coef G files (NamedTuple p).
Proof.
  unfold get_corr_coef_hoisted, get_corr_coef.
  rewrite elliptical_orbit_correction_namedtuple, py_bind_ok.
  apply for_each_ext. intros acc band _. symmetry.
  apply get_corr_coef_hoisted_body_eq.
Qed.

Lemma get_corr_coef_per_band_witness :
  ∃ coefs,
    get_corr_coef globals_2 files_2 (NamedTuple params_day1) = Ok coefs ∧
    length coefs = 2%nat ∧
    ∀ i t, [table_1; table_2] !! i = Some t →
      coefs !! i =
        Some (let '(a, b) := t 30 2 (3 / 10) (1 / 10) (1 / 2) in
              let k := 0.03275104 * cos (IZR 1 / 59.66638337) + 0.96804905 in
              (a * k, b * k)).
Proof.
  apply (get_corr_coef_per_band globals_2 files_2 params_day1 [table_1; table_2]).
  - reflexivity.
  - intros [|[|i]] t Ht; simpl in Ht; inversion Ht; subst t; reflexivity.
Defined.

Lemma elliptical_orbit_correction_formula_witness :
  elliptical_orbit_correction (NamedTuple params_day1)
  = Ok (0.03275104 * cos (IZR 1 / 59.66638337) + 0.96804905).
Proof. apply (elliptical_orbit_correction_formula params_day1). simpl. lia. Defined.

Lemma elliptical_orbit_correction_range_witness :
  ∃ k, elliptical_orbit_correction (NamedTuple params_day1) = Ok k ∧ 0.935 <= k <= 1.001.
Proof. apply (elliptical_orbit_correction_range params_day1). simpl. lia. Defined.

(** ** Claims on the radiance multiplier and the reflectance transform *)

(** C4. For every solar irradiance, solar zenith angle in degrees and day
    of year, read from the scene properties and from a parameter mapping,
    the multiplier is
    [irradiance * cos (radians zenith) / (PI * d ^ 2)] with
    [d = 1 - 0.01672 * cos (0.9856 * (day - 4))]. *)
Theorem toa_to_rad_multiplier_formula (bandname : string)
    (imageInfo atm : gmap string R) (solar_irradiance solar_zenith_deg : R)
    (day_of_year : Z) :
  imageInfo !! ("SOLAR_IRRADIANCE_" +:+ bandname) = Some solar_irradiance →
  atm !! "solar_z" = Some solar_zenith_deg →
  atm !! "doy" = Some (IZR day_of_year) →
  toa_to_rad_multiplier bandname imageInfo (Dict atm)
  = Ok (let d := 1 - 0.01672 * cos (0.9856 * (IZR day_of_year - 4)) in
        solar_irradiance * cos (radians solar_zenith_deg) / (PI * d ^ 2)).
Proof.
  intros Hesun Hsz Hdoy. unfold toa_to_rad_multiplier, dict_get, getitem.
  rewrite Hesun, Hsz, Hdoy. reflexivity.
Qed.

Lemma toa_to_rad_multiplier_formula_witness :
  toa_to_rad_multiplier "B1" info_2 (Dict atm_dict)
  = Ok (let d := 1 - 0.01672 * cos (0.9856 * (IZR 1 - 4)) in
        1959 * cos (radians 30) / (PI * d ^ 2)).
Proof.
  apply (toa_to_rad_multiplier_formula "B1" info_2 atm_dict 1959 30 1);
    reflexivity.
Defined.

Lemma Image_bandNames_map f (img : Image) :
  Image_bandNames (Image_map f img) = Image_bandNames img.
Proof.
  unfold Image_bandNames, Image_map. rewrite map_map. reflexivity.
Qed.

Lemma Image_select_map f (img : Image) name :
  Image_select (Image_map f img) name = Image_map f (Image_select img name).
Proof.
  unfold Image_select, Image_map.
  induction img as [|band img IH]; [reflexivity|].
  simpl. rewrite !filter_cons. simpl.
  destruct (decide (band.1 = name)); simpl; by rewrite <- IH.
Qed.

Lemma Image_map_map f g (img : Image) :
  Image_map f (Image_map g img) = Image_map (fun v => f (g v)) img.
Proof.
  unfold Image_map. rewrite map_map. apply map_ext. intros [n px]. simpl.
  by rewrite map_map.
Qed.

Lemma Image_map_id f (img : Image) :
  (∀ v, f v = v) → Image_map f img = img.
Proof.
  intros Hf. unfold Image_map. rewrite <- (map_id img) at 2.
  apply map_ext. intros [n px]. simpl. f_equal.
  rewrite <- (map_id px) at 2. by apply map_ext.
Qed.

(** The band computed for one band name, pixel by pixel. *)
Lemma surface_refl_pixels (image : Image) name m a b :
  surface_refl (Image_divide image 10000) name m a b
  = Image_map (fun toa => (toa / 10000 * m - a) / b) (Image_select image name).
Proof.
  unfold surface_refl, Image_divide, Image_multiply, Image_subtract.
  rewrite Image_select_map, !Image_map_map. reflexivity.
Qed.

(** C2. In the iteration for band [ii], with [m] the multiplier of the
    band and [(a, b)] its coefficient pair, every pixel [toa] of the band
    becomes [(toa / 10000 * m - a) / b]: the radiance
    [(toa / 10000) * m] minus the first coefficient, divided by the
    second; that band is added to the image under construction. *)
Theorem atm_corr_band_body_transform (image new_image : Image)
    (imageInfo : gmap string R) (atmParams : PyObj)
    (cor_coeff_list : list (R * R)) (ii : nat) (name : string)
    (pixels : list R) (m a b : R) :
  Image_bandNames image !! ii = Some name →
  Image_select image name = [(name, pixels)] →
  toa_to_rad_multiplier name imageInfo atmParams = Ok m →
  cor_coeff_list !! ii = Some (a, b) →
  atm_corr_band_body (Image_divide image 10000)
    (Image_bandNames (Image_divide image 10000))
    imageInfo atmParams cor_coeff_list new_image ii
  = Ok (new_image ++
        [(name, map (fun toa => let radiance := toa / 10000 * m in
                                (radiance - a) / b) pixels)]).
Proof.
  intros Hname Hsel Hm Hcoef. unfold atm_corr_band_body, list_index, Image_divide at 2.
  rewrite Image_bandNames_map, Hname. simpl. rewrite Hm. simpl.
  rewrite Hcoef. simpl. rewrite surface_refl_pixels, Hsel. reflexivity.
Qed.

Lemma atm_corr_band_body_transform_witness :
  atm_corr_band_body (Image_divide image_2 10000)
    (Image_bandNames (Image_divide image_2 10000))
    info_2 (Dict atm_dict) [(1, 2); (3, 4)] [] 1
  = Ok ([] ++
        [("B2", map (fun toa =>
                       let radiance :=
                         toa / 10000 *
                         (let d := 1 - 0.01672 * cos (0.9856 * (IZR 1 - 4)) in
                          1824 * cos (radians 30) / (PI * d ^ 2)) in
                       (radiance - 3) / 4) [400; 10000])]).
Proof.
  apply (atm_corr_band_body_transform image_2 [] info_2 (Dict atm_dict)
           [(1, 2); (3, 4)] 1 "B2" [400; 10000]); reflexivity.
Defined.

(** C7. With a nonzero multiplier [m] and a nonzero second coefficient
    [b], [recover] applied to the transformed band gives back the band's
    original values: the transform is invertible. *)
Theorem recover_surface_refl (image : Image) (name : string) (m a b : R) :
  m ≠ 0 → b ≠ 0 →
  recover (surface_refl (Image_divide image 10000) name m a b) m a b
  = Image_select image name.
Proof.
  intros Hm Hb. unfold recover, Image_divide at 1, Image_multiply.
  rewrite surface_refl_pixels, !Image_map_map.
  apply Image_map_id. intros v. field. done.
Qed.

Lemma recover_surface_refl_witness :
  recover (surface_refl (Image_divide image_2 10000) "B1" 5 1 2) 5 1 2
  = Image_select image_2 "B1".
Proof. apply (recover_surface_refl image_2 "B1" 5 1 2); lra. Defined.

(** ** The batch loop *)

Lemma driver_body_inv G E flag st k st' :
  driver_body G E flag st k = Ok st' →
  ∃ scene coefs,
    S2List E !! k = Some scene ∧
    scene_coeffs G E scene coefs ∧
    coeff_list st' = coeff_list st ++ [coefs] ∧
    EXPORT st' = Some flag ∧
    if flag then
      ∃ img, scene_image G E scene img ∧
             corrected_images st' = corrected_images st ++ [EEImage img] ∧
             export_list st' = export_list st ++ [mkTask img ("sen2_" +:+ str k)]
    else
      corrected_images st' = corrected_images st ∧
      export_list st' = export_list st.
Proof.
  unfold driver_body, ee_List_get.
  destruct (S2List E !! k) as [scene|] eqn:Hk; [|discriminate].
  rewrite py_bind_ok.
  destruct (atm_corr_image E (properties scene)) as [p|e] eqn:Hp; [|discriminate].
  rewrite py_bind_ok.
  destruct (get_corr_coef G (ilut_files E) (NamedTuple p)) as [c|e] eqn:Hc;
    [|discriminate].
  rewrite py_bind_ok. intros H.
  exists scene, c. split; [done|]. split; [by exists p|].
  destruct flag.
  - destruct (atm_corr_band G (ilut_files E) (ee_Image E) (raster scene)
                (properties scene) (NamedTuple p)) as [img|e] eqn:Himg;
      [|discriminate].
    rewrite py_bind_ok in H. injection H as <-. simpl.
    repeat split. exists img. repeat split. by exists p.
  - injection H as <-. simpl. by repeat split.
Qed.

Lemma driver_body_no_export G E st k scene coefs :
  S2List E !! k = Some scene →
  scene_coeffs G E scene coefs →
  driver_body G E false st k
  = Ok (mkDriverState (corrected_images st) (export_list st)
                      (coeff_list st ++ [coefs]) (Some false)).
Proof.
  intros Hk (p & Hp & Hc). unfold driver_body, ee_List_get.
  rewrite Hk, py_bind_ok, Hp, py_bind_ok, Hc. reflexivity.
Qed.

(** What the iterations [k, k + m) of the loop add to the state. *)
Lemma driver_loop_inv G E flag m : ∀ k st st',
  for_each (driver_body G E flag) st (seq k m) = Ok st' →
  ∃ coefs imgs,
    Forall2 (scene_coeffs G E) (take m (drop k (S2List E))) coefs ∧
    coeff_list st' = coeff_list st ++ coefs ∧
    corrected_images st' = corrected_images st ++ (EEImage <$> imgs) ∧
    (if flag then Forall2 (scene_image G E) (take m (drop k (S2List E))) imgs
     else imgs = [] ∧ export_list st' = export_list st).
Proof.
  induction m as [|m IH]; intros k st st' H.
  - simpl in H. injection H as <-. exists [], [].
    rewrite !app_nil_r. simpl. repeat split; [constructor|].
    destruct flag; [constructor | done].
  - simpl in H.
    destruct (driver_body G E flag st k) as [st1|e] eqn:Hbody; [|discriminate].
    rewrite py_bind_ok in H.
    apply driver_body_inv in Hbody
      as (scene & c & Hk & Hsc & Hcl & _ & Hflag).
    apply IH in H as (coefs & imgs & Hcoefs & Hcl' & Hci' & Hflag').
    rewrite (drop_S _ _ _ Hk). simpl.
    destruct flag.
    + destruct Hflag as (img & Himg & Hci & _).
      exists (c :: coefs), (img :: imgs). repeat split.
      * by constructor.
      * rewrite Hcl', Hcl, <- app_assoc. reflexivity.
      * rewrite Hci', Hci, <- app_assoc. reflexivity.
      * by constructor.
    + destruct Hflag as [Hci Hel]. destruct Hflag' as [-> Hel'].
      exists (c :: coefs), []. repeat split.
      * by constructor.
      * rewrite Hcl', Hcl, <- app_assoc. reflexivity.
      * rewrite Hci', Hci. reflexivity.
      * congruence.
Qed.

Lemma driver_loop_no_export G E coefs : ∀ scenes k st,
  drop k (S2List E) = scenes →
  Forall2 (scene_coeffs G E) scenes coefs →
  for_each (driver_body G E false) st (seq k (length scenes))
  = Ok (mkDriverState (corrected_images st) (export_list st)
          (coeff_list st ++ coefs)
          (match scenes with [] => EXPORT st | _ => Some false end)).
Proof.
  intros scenes k st Hdrop H. revert k st Hdrop.
  induction H as [|scene c scenes coefs Hsc _ IH]; intros k st Hdrop.
  - simpl. rewrite app_nil_r. by destruct st.
  - assert (S2List E !! k = Some scene) as Hk.
    { rewrite <- (Nat.add_0_r k), <- lookup_drop, Hdrop. reflexivity. }
    simpl. rewrite (driver_body_no_export G E st k scene c Hk Hsc), py_bind_ok.
    rewrite IH.
    + simpl. rewrite <- app_assoc. simpl. by destruct scenes.
    + rewrite (drop_S _ _ _ Hk) in Hdrop. congruence.
Qed.

Lemma batch_loop_no_export G E coefs :
  Forall2 (scene_coeffs G E) (S2List E) coefs →
  batch_loop G E false
  = Ok (mkDriverState [EENumber 0] [] coefs
          (match S2List E with [] => None | _ => Some false end)).
Proof.
  intros H. unfold batch_loop, NO_OF_IMAGES.
  by rewrite (driver_loop_no_export G E coefs (S2List E) 0 (init_state)).
Qed.

Lemma main_no_export G E coefs :
  S2List E ≠ [] →
  Forall2 (scene_coeffs G E) (S2List E) coefs →
  main G E false = Ok (mkOutput coefs [] []).
Proof.
  intros Hne H. unfold main. rewrite (batch_loop_no_export G E coefs H).
  rewrite py_bind_ok. simpl. by destruct (S2List E).
Qed.

(** The accumulator of corrected images when the batch loop has
    completed: the seeded number followed by the images appended, one per
    scene in processing order when [EXPORT] is set and none otherwise;
    [slice(1)] drops the seeded number and nothing else. *)
Lemma corrected_images_loop_invariant (G : Globals) (E : Env) (flag : bool)
    (st : DriverState) :
  batch_loop G E flag = Ok st →
  ∃ imgs,
    corrected_images st = EENumber 0 :: (EEImage <$> imgs) ∧
    slice1 (corrected_images st) = EEImage <$> imgs ∧
    if flag then Forall2 (scene_image G E) (S2List E) imgs else imgs = [].
Proof.
  unfold batch_loop, NO_OF_IMAGES. intros H.
  apply driver_loop_inv in H as (coefs & imgs & _ & _ & Hci & Hflag).
  exists imgs. rewrite Hci. simpl. repeat split.
  rewrite drop_0, firstn_all in Hflag.
  destruct flag; [done | by destruct Hflag].
Qed.

(** ** Out-of-domain scenes *)

Lemma params_b_out_of_domain : out_of_every_domain globals_2 tables_2 params_b.
Proof.
  unfold out_of_every_domain, tables_2.
  repeat constructor; simpl; lra.
Qed.

(** The scene with zenith angle 100 is evaluated like any other, and its
    coefficients are the second entry of the report. *)
Example out_of_domain_scene_reported :
  get_corr_coef globals_2 (ilut_files env_2) (NamedTuple params_b)
  = Ok (map (scaled_pair globals_2 params_b) [table_1; table_2]) ∧
  main globals_2 env_2 false = Ok (mkOutput coeffs_2 [] []).
Proof. split; reflexivity. Qed.

(** C5, as stated, fails: on the batch [scene_a; scene_b], whose second
    scene is outside the domain of both tables, that scene is not
    rejected with [OutOfDomainError]. *)
Lemma out_of_domain_scene_not_skipped :
  ¬ skips_out_of_domain globals_2 env_2 tables_2.
Proof.
  intros H.
  destruct (H 1%nat scene_b params_b eq_refl eq_refl params_b_out_of_domain)
    as [Hraise _].
  pose proof (proj1 out_of_domain_scene_reported) as Hok.
  rewrite Hok in Hraise. discriminate Hraise.
Qed.

(** C5, amended.  The source checks no domain and handles no exception.
    When every band file loads and the parameters of every scene are
    retrieved, every scene of a non-empty batch, whether or not its
    parameters lie in the domain of any table, gets the coefficients that
    the tables return for it, and the report lists them for all scenes
    in processing order. *)
Theorem out_of_domain_scene_evaluated (G : Globals) (E : Env)
    (tables : list BandLookupTable) (params : list AtmParams) :
  length tables = NO_OF_BANDS G →
  (∀ i t, tables !! i = Some t →
          band_file G (ilut_files E) (S i) (table_call t)) →
  Forall2 (fun scene p => atm_corr_image E (properties scene) = Ok p)
          (S2List E) params →
  S2List E ≠ [] →
  ∃ out,
    main G E false = Ok out ∧
    report out = map (fun p => map (scaled_pair G p) (table_call <$> tables)) params ∧
    ∀ i p, params !! i = Some p →
      out_of_every_domain G tables p →
      get_corr_coef G (ilut_files E) (NamedTuple p)
      = Ok (map (scaled_pair G p) (table_call <$> tables)) ∧
      report out !! i = Some (map (scaled_pair G p) (table_call <$> tables)).
Proof.
  intros Hlen Hfiles Hparams Hne.
  assert (∀ p, get_corr_coef G (ilut_files E) (NamedTuple p)
               = Ok (map (scaled_pair G p) (table_call <$> tables))) as Hcoef.
  { intros p. apply get_corr_coef_namedtuple.
    - by rewrite length_fmap.
    - intros i t Ht. rewrite list_lookup_fmap in Ht.
      destruct (tables !! i) as [bt|] eqn:Hbt; [|discriminate].
      injection Ht as <-. by apply Hfiles. }
  exists (mkOutput
            (map (fun p => map (scaled_pair G p) (table_call <$> tables)) params)
            [] []).
  split; [|split].
  - apply main_no_export; [done|].
    apply Forall2_fmap_r. eapply Forall2_impl; [exact Hparams|].
    intros scene p Hp. exists p. split; [done|]. apply Hcoef.
  - reflexivity.
  - intros i p Hi _. split; [apply Hcoef|].
    simpl. by rewrite list_lookup_fmap, Hi.
Qed.

Lemma out_of_domain_scene_evaluated_witness :
  ∃ out,
    main globals_2 env_2 false = Ok out ∧
    report out
    = map (fun p => map (scaled_pair globals_2 p) (table_call <$> tables_2))
          [params_a; params_b] ∧
    ∀ i p, [params_a; params_b] !! i = Some p →
      out_of_every_domain globals_2 tables_2 p →
      get_corr_coef globals_2 (ilut_files env_2) (NamedTuple p)
      = Ok (map (scaled_pair globals_2 p) (table_call <$> tables_2)) ∧
      report out !! i = Some (map (scaled_pair globals_2 p) (table_call <$> tables_2)).
Proof.
  apply (out_of_domain_scene_evaluated globals_2 env_2 tables_2 [params_a; params_b]).
  - reflexivity.
  - intros [|[|i]] t Ht; simpl in Ht; inversion Ht; subst t; reflexivity.
  - repeat constructor.
  - discriminate.
Defined.

(** ** The export branch *)

(** [toa_to_rad_multiplier] subscripts its parameters with strings; the
    loop hands it the named tuple of [atm_corr_image]. *)
Lemma toa_to_rad_multiplier_namedtuple name info p v :
  info !! ("SOLAR_IRRADIANCE_" +:+ name) = Some v →
  toa_to_rad_multiplier name info (NamedTuple p) = Raise TypeError.
Proof.
  intros Hv. unfold toa_to_rad_multiplier, dict_get. rewrite Hv. reflexivity.
Qed.

Lemma toa_to_rad_multiplier_namedtuple_raises name info p :
  ∃ e, toa_to_rad_multiplier name info (NamedTuple p) = Raise e.
Proof.
  unfold toa_to_rad_multiplier, dict_get.
  destruct (info !! ("SOLAR_IRRADIANCE_" +:+ name)); eexists; reflexivity.
Qed.

Lemma atm_corr_band_namedtuple_raises G files blank image info p :
  NO_OF_BANDS G ≠ 0%nat →
  ∃ e, atm_corr_band G files blank image info (NamedTuple p) = Raise e.
Proof.
  intros Hn. unfold atm_corr_band.
  destruct (get_corr_coef G files (NamedTuple p)) as [coefs|e];
    [|eexists; reflexivity].
  rewrite py_bind_ok.
  destruct (NO_OF_BANDS G) as [|n]; [done|]. simpl.
  unfold atm_corr_band_body at 2, list_index.
  destruct (Image_bandNames (Image_divide image 10000) !! 0%nat) as [name|];
    [|eexists; reflexivity].
  rewrite py_bind_ok.
  destruct (toa_to_rad_multiplier_namedtuple_raises name info p) as [e ->].
  eexists; reflexivity.
Qed.

Lemma driver_body_export_raises G E st k :
  NO_OF_BANDS G ≠ 0%nat →
  ∃ e, driver_body G E true st k = Raise e.
Proof.
  intros Hn. unfold driver_body.
  destruct (ee_List_get (S2List E) k) as [scene|e]; [|eexists; reflexivity].
  rewrite py_bind_ok.
  destruct (atm_corr_image E (properties scene)) as [p|e]; [|eexists; reflexivity].
  rewrite py_bind_ok.
  destruct (get_corr_coef G (ilut_files E) (NamedTuple p)) as [c|e];
    [|eexists; reflexivity].
  rewrite py_bind_ok.
  destruct (atm_corr_band_namedtuple_raises G (ilut_files E) (ee_Image E)
              (raster scene) (properties scene) p Hn) as [e ->].
  eexists; reflexivity.
Qed.

(** With [EXPORT] set and at least one band, the script never reaches
    its report, whatever the batch. *)
Lemma main_export_raises G E :
  NO_OF_BANDS G ≠ 0%nat →
  ∃ e, main G E true = Raise e.
Proof.
  intros Hn. unfold main, batch_loop, NO_OF_IMAGES.
  destruct (S2List E) as [|scene scenes]; [eexists; reflexivity|].
  simpl.
  destruct (driver_body_export_raises G E (init_state) 0 Hn) as [e ->].
  eexists; reflexivity.
Qed.

Lemma scene_coeffs_functional G E scene c1 c2 :
  scene_coeffs G E scene c1 → scene_coeffs G E scene c2 → c1 = c2.
Proof.
  intros (p1 & Hp1 & Hc1) (p2 & Hp2 & Hc2). congruence.
Qed.

(** The coefficients themselves are computed before [EXPORT] is looked
    at: two runs that both reach the report write the same report. *)
Lemma reports_agree G E o1 o2 :
  main G E true = Ok o1 → main G E false = Ok o2 → report o1 = report o2.
Proof.
  unfold main. intros H1 H2.
  destruct (batch_loop G E true) as [st1|] eqn:Hl1; [|discriminate].
  destruct (batch_loop G E false) as [st2|] eqn:Hl2; [|discriminate].
  rewrite py_bind_ok in H1, H2.
  destruct (EXPORT st1); [|discriminate]. destruct (EXPORT st2); [|discriminate].
  rewrite py_bind_ok in H1, H2. injection H1 as <-. injection H2 as <-. simpl.
  apply driver_loop_inv in Hl1 as (c1 & _ & Hc1 & -> & _).
  apply driver_loop_inv in Hl2 as (c2 & _ & Hc2 & -> & _).
  simpl. clear -Hc1 Hc2.
  revert c2 Hc2. induction Hc1 as [|s c ss cs Hs _ IH]; intros c2 Hc2.
  - by inversion Hc2.
  - inversion Hc2 as [|s' c' ss' cs' Hs' Hcs']; subst.
    f_equal; [by eapply scene_coeffs_functional | by apply IH].
Qed.

(** C8: the source at [EXPORT = True].  On a one-scene batch with the
    constants of the source and every band file present, the run without
    export writes the scene's thirteen coefficient pairs, and the run with
    export raises [TypeError] in the first band of the first scene and
    writes nothing. *)
Theorem export_run_raises_typeerror :
  main (globals_src (1 / 20)) env_src false
  = Ok (mkOutput
          [map (scaled_pair (globals_src (1 / 20)) params_a) (replicate 13 table_1)]
          [] []) ∧
  main (globals_src (1 / 20)) env_src true = Raise TypeError.
Proof. split; reflexivity. Qed.

(** With [EXPORT] set and at least one band, the batch loop does not
    complete on any non-empty batch: no image is ever appended to
    [corrected_images] and [slice(1)] is never reached. *)
Lemma batch_loop_export_raises G E :
  NO_OF_BANDS G ≠ 0%nat →
  S2List E ≠ [] →
  ∃ e, batch_loop G E true = Raise e.
Proof.
  intros Hn Hne. unfold batch_loop, NO_OF_IMAGES.
  destruct (S2List E) as [|scene scenes]; [done|]. simpl.
  destruct (driver_body_export_raises G E (init_state) 0 Hn) as [e ->].
  eexists; reflexivity.
Qed.


(** [atm_corr_band] reads its parameters both ways, [atmParams.field] in
    [get_corr_coef] and [atmParams["field"]] in [toa_to_rad_multiplier]:
    with at least one band, neither a named tuple nor a dictionary gets
    through it. *)
Lemma atm_corr_band_raises G files blank image info obj :
  NO_OF_BANDS G ≠ 0%nat →
  ∃ e, atm_corr_band G files blank image info obj = Raise e.
Proof.
  intros Hn. destruct obj as [p|d].
  - by apply atm_corr_band_namedtuple_raises.
  - unfold atm_corr_band, get_corr_coef, band_nums.
    destruct (NO_OF_BANDS G) as [|n]; [done|]. simpl.
    unfold get_corr_coef_body at 2.
    destruct (load_ilut files _); eexists; reflexivity.
Qed.

(** * Further properties of the code *)

(** ** Band labels and band files *)

Lemma string_length_app (s t : string) :
  String.length (s +:+ t) = (String.length s + String.length t)%nat.
Proof. induction s as [|c s IH]; simpl; [reflexivity | by rewrite IH]. Qed.

Lemma string_app_inv_head (s a b : string) : s +:+ a = s +:+ b → a = b.
Proof. induction s as [|c s IH]; simpl; [done|]. intros [= H]. by apply IH. Qed.

Lemma string_app_inv_tail (a b t : string) : a +:+ t = b +:+ t → a = b.
Proof.
  revert b. induction a as [|c a IH]; intros [|c' b] H; simpl in H.
  - reflexivity.
  - apply (f_equal String.length) in H. cbn in H.
    rewrite ?string_length_app in H. cbn in H. lia.
  - apply (f_equal String.length) in H. cbn in H.
    rewrite ?string_length_app in H. cbn in H. lia.
  - injection H as -> H. f_equal. by apply IH.
Qed.

Lemma ilut_path_inj G (b1 b2 : string) :
  ilut_path G b1 = ilut_path G b2 → b1 = b2.
Proof.
  unfold ilut_path. intros H.
  apply string_app_inv_head, string_app_inv_head in H.
  by apply string_app_inv_tail in H.
Qed.

Lemma zfill_str (w n : nat) :
  zfill w (str n) = zeros (w - String.length (str n)) +:+ str n.
Proof. unfold zfill, str. by destruct (Nat.to_uint n). Qed.

Lemma uint_of_string_zeros (k : nat) (s : string) :
  NilEmpty.uint_of_string (zeros k +:+ s)
  = Nat.iter k Decimal.D0 <$> NilEmpty.uint_of_string s.
Proof.
  induction k as [|k IH].
  - change (zeros 0 +:+ s) with s. by destruct (NilEmpty.uint_of_string s).
  - change (zeros (S k) +:+ s) with (String "0"%char (zeros k +:+ s)).
    simpl. rewrite IH. by destruct (NilEmpty.uint_of_string s).
Qed.

Lemma of_uint_zeros (k : nat) (d : Decimal.uint) :
  Nat.of_uint (Nat.iter k Decimal.D0 d) = Nat.of_uint d.
Proof. induction k as [|k IH]; [reflexivity|]. simpl. exact IH. Qed.

Lemma int_of_str_zfill (w n : nat) : int_of_str (zfill w (str n)) = Some n.
Proof.
  unfold int_of_str. rewrite zfill_str, uint_of_string_zeros.
  unfold str. rewrite NilEmpty.usu. simpl.
  by rewrite of_uint_zeros, DecimalNat.Unsigned.of_to.
Qed.

(** X1. The label of the band at position [i] reads back as the band
    number [i + 1], whatever the number of bands: zero padding loses
    nothing. *)
Theorem band_nums_read_back (G : Globals) (i : nat) (band : string) :
  band_nums G !! i = Some band → int_of_str band = Some (S i).
Proof.
  unfold band_nums. intros H. rewrite list_lookup_fmap in H.
  destruct (seq 1 (NO_OF_BANDS G) !! i) as [n|] eqn:Hn; [|discriminate].
  apply lookup_seq in Hn as [-> _]. injection H as <-.
  apply int_of_str_zfill.
Qed.

Lemma band_nums_read_back_witness : int_of_str "07" = Some 7%nat.
Proof.
  apply (band_nums_read_back (globals_src 0) 6 "07"). reflexivity.
Defined.

Lemma ilut_paths_lookup_inj G (i j : nat) (path : string) :
  (ilut_path G <$> band_nums G) !! i = Some path →
  (ilut_path G <$> band_nums G) !! j = Some path →
  i = j.
Proof.
  rewrite !list_lookup_fmap. intros Hi Hj.
  destruct (band_nums G !! i) as [bi|] eqn:Hbi; [|discriminate].
  destruct (band_nums G !! j) as [bj|] eqn:Hbj; [|discriminate].
  simpl in Hi, Hj. injection Hi as Hi. injection Hj as Hj.
  assert (bi = bj) as -> by (apply (ilut_path_inj G); congruence).
  assert (int_of_str bj = Some (S i)) as H1.
  { unfold band_nums in Hbi. rewrite list_lookup_fmap in Hbi.
    destruct (seq 1 (NO_OF_BANDS G) !! i) as [n|] eqn:Hn; [|discriminate].
    apply lookup_seq in Hn as [-> _]. injection Hbi as <-.
    apply int_of_str_zfill. }
  assert (int_of_str bj = Some (S j)) as H2.
  { unfold band_nums in Hbj. rewrite list_lookup_fmap in Hbj.
    destruct (seq 1 (NO_OF_BANDS G) !! j) as [n|] eqn:Hn; [|discriminate].
    apply lookup_seq in Hn as [-> _]. injection Hbj as <-.
    apply int_of_str_zfill. }
  congruence.
Qed.

Lemma ilut_paths_NoDup (G : Globals) : NoDup (ilut_path G <$> band_nums G).
Proof.
  apply NoDup_alt. intros i j path. apply ilut_paths_lookup_inj.
Qed.

(** X2. No two bands read the same file: the bands at two different
    positions of [band_nums] have different lookup-table paths, for every
    directory and every number of bands. *)
Theorem ilut_paths_distinct (G : Globals) (i j : nat) (band_i band_j : string) :
  band_nums G !! i = Some band_i →
  band_nums G !! j = Some band_j →
  i ≠ j →
  ilut_path G band_i ≠ ilut_path G band_j.
Proof.
  intros Hi Hj Hne Heq. apply Hne.
  apply (ilut_paths_lookup_inj G i j (ilut_path G band_i)).
  - by rewrite list_lookup_fmap, Hi.
  - by rewrite list_lookup_fmap, Hj, Heq.
Qed.

Lemma ilut_paths_distinct_witness :
  ilut_path (globals_src 0) "01" ≠ ilut_path (globals_src 0) "13".
Proof.
  apply (ilut_paths_distinct (globals_src 0) 0 12 "01" "13");
    [reflexivity | reflexivity | lia].
Defined.

Lemma band_nums_length G : length (band_nums G) = NO_OF_BANDS G.
Proof. unfold band_nums. by rewrite length_map, length_seq. Qed.

Lemma band_nums_lookup G (i : nat) :
  (i < NO_OF_BANDS G)%nat → band_nums G !! i = Some (zfill 2 (str (S i))).
Proof.
  intros Hi. unfold band_nums. rewrite list_lookup_fmap.
  by rewrite (lookup_seq_lt _ _ _ Hi).
Qed.

Lemma store_tables_band_file G (tables : list iLUT) (i : nat) t :
  length tables = NO_OF_BANDS G →
  tables !! i = Some t →
  band_file G (store_tables G tables) (S i) t.
Proof.
  intros Hlen Ht. unfold band_file, store_tables.
  assert (i < NO_OF_BANDS G)%nat as Hi.
  { rewrite <- Hlen. by eapply lookup_lt_Some. }
  apply elem_of_list_to_map_1.
  - rewrite fst_zip; [apply ilut_paths_NoDup|].
    rewrite length_fmap, band_nums_length. lia.
  - apply list_elem_of_lookup. exists i.
    apply lookup_zip_with_Some. eexists _, _. split; [reflexivity|].
    split; [|exact Ht].
    by rewrite list_lookup_fmap, (band_nums_lookup G i Hi).
Qed.

(** X3. Storing table [i] in the file of band [i + 1], for a list of
    [NO_OF_BANDS] tables, and calling [get_corr_coef] on a record gives
    the tables' pairs scaled by the orbit factor, in the order of the
    list: each band reads back its own table. *)
Theorem get_corr_coef_store_tables (G : Globals) (p : AtmParams)
    (tables : list iLUT) :
  length tables = NO_OF_BANDS G →
  get_corr_coef G (store_tables G tables) (NamedTuple p)
  = Ok (map (fun t : iLUT =>
               let '(a, b) := t (solar_z p) (h2o p) (o3 p) (aot p) (KM G) in
               let k := 0.03275104 * cos (IZR (doy p) / 59.66638337) + 0.96804905 in
               (a * k, b * k)) tables).
Proof.
  intros Hlen.
  rewrite (get_corr_coef_namedtuple G _ p tables Hlen).
  - f_equal.
  - intros i t Ht. by apply store_tables_band_file.
Qed.

Lemma get_corr_coef_store_tables_witness :
  get_corr_coef globals_2 (store_tables globals_2 [table_1; table_2])
    (NamedTuple params_day1)
  = Ok (map (fun t : iLUT =>
               let '(a, b) := t 30 2 (3 / 10) (1 / 10) (1 / 2) in
               let k := 0.03275104 * cos (IZR 1 / 59.66638337) + 0.96804905 in
               (a * k, b * k)) [table_1; table_2]).
Proof.
  apply (get_corr_coef_store_tables globals_2 params_day1 [table_1; table_2]).
  reflexivity.
Defined.

(** What a completed run of the band loop on a record has read and
    built. *)
Lemma get_corr_coef_loop_inv G files p (bands : list string) :
  ∀ acc coefs,
    for_each (get_corr_coef_body G files (NamedTuple p)) acc bands = Ok coefs →
    ∃ ts : list iLUT,
      Forall2 (fun band t => files !! ilut_path G band = Some t) bands ts ∧
      coefs = acc ++ map (scaled_pair G p) ts.
Proof.
  induction bands as [|band bands IH]; intros acc coefs H.
  - simpl in H. injection H as <-. exists []. split; [constructor|].
    by rewrite app_nil_r.
  - simpl in H.
    destruct (files !! ilut_path G band) as [t|] eqn:Hf.
    + rewrite (get_corr_coef_body_namedtuple G files p acc band t Hf) in H.
      rewrite py_bind_ok in H. apply IH in H as (ts & Hts & ->).
      exists (t :: ts). split; [by constructor|].
      simpl. by rewrite <- app_assoc.
    + rewrite (get_corr_coef_body_missing G files _ acc band Hf) in H.
      discriminate H.
Qed.

Lemma get_corr_coef_body_dict G files d acc band :
  get_corr_coef_body G files (Dict d) acc band
  = match files !! ilut_path G band with
    | Some _ => Raise (AttributeError "solar_z")
    | None => Raise (FileNotFoundError (ilut_path G band))
    end.
Proof.
  unfold get_corr_coef_body, load_ilut.
  destruct (files !! ilut_path G band); reflexivity.
Qed.

Lemma get_corr_coef_dict G files d :
  NO_OF_BANDS G ≠ 0%nat →
  get_corr_coef G files (Dict d)
  = match files !! ilut_path G (zfill 2 (str 1)) with
    | Some _ => Raise (AttributeError "solar_z")
    | None => Raise (FileNotFoundError (ilut_path G (zfill 2 (str 1))))
    end.
Proof.
  intros Hn. unfold get_corr_coef, band_nums.
  destruct (NO_OF_BANDS G) as [|n]; [done|]. cbn [seq map for_each].
  rewrite get_corr_coef_body_dict.
  destruct (files !! ilut_path G (zfill 2 (str 1))); reflexivity.
Qed.

(** X4. Whatever object and files it is given, a list returned by
    [get_corr_coef] has exactly [NO_OF_BANDS] pairs. *)
Theorem get_corr_coef_length (G : Globals) (files : gmap string iLUT)
    (atmParams : PyObj) (coefs : list (R * R)) :
  get_corr_coef G files atmParams = Ok coefs →
  length coefs = NO_OF_BANDS G.
Proof.
  destruct atmParams as [p|d]; intros H.
  - apply get_corr_coef_loop_inv in H as (ts & Hts & ->).
    simpl. rewrite length_map, <- (Forall2_length _ _ _ Hts).
    apply band_nums_length.
  - destruct (decide (NO_OF_BANDS G = 0%nat)) as [Hz|Hnz].
    + unfold get_corr_coef, band_nums in H. rewrite Hz in H.
      simpl in H. injection H as <-. by rewrite Hz.
    + rewrite (get_corr_coef_dict G files d Hnz) in H.
      by destruct (files !! ilut_path G (zfill 2 (str 1))).
Qed.

Lemma get_corr_coef_length_witness :
  length (map (scaled_pair globals_2 params_day1) [table_1; table_2])
  = NO_OF_BANDS globals_2.
Proof.
  apply (get_corr_coef_length globals_2 files_2 (NamedTuple params_day1)).
  reflexivity.
Defined.

Lemma for_each_app {A S} (f : S → A → PyResult S) (xs ys : list A) (s : S) :
  for_each f s (xs ++ ys) = (for_each f s xs ≫= fun s' => for_each f s' ys).
Proof.
  revert s. induction xs as [|x xs IH]; intros s; [reflexivity|].
  simpl. destruct (f s x) as [s'|e]; [|reflexivity].
  rewrite !py_bind_ok. apply IH.
Qed.

Lemma for_each_all_ok {A S} (f : S → A → PyResult S) (xs : list A) :
  (∀ x, x ∈ xs → ∀ s, ∃ s', f s x = Ok s') →
  ∀ s, ∃ r, for_each f s xs = Ok r.
Proof.
  induction xs as [|x xs IH]; intros Hok s; [by exists s|].
  simpl. destruct (Hok x (list_elem_of_here _ _) s) as [s' ->].
  rewrite py_bind_ok. apply IH. intros y Hy. apply Hok.
  by apply list_elem_of_further.
Qed.

(** X5. When the files of the bands before band [j + 1] exist and the
    file of band [j + 1] does not, [get_corr_coef] raises
    [FileNotFoundError] for that path and returns no coefficient at all,
    not even for the bands already read. *)
Theorem get_corr_coef_first_missing_file (G : Globals)
    (files : gmap string iLUT) (p : AtmParams) (j : nat) :
  (j < NO_OF_BANDS G)%nat →
  (∀ i, (i < j)%nat → is_Some (files !! ilut_path G (zfill 2 (str (S i))))) →
  files !! ilut_path G (zfill 2 (str (S j))) = None →
  get_corr_coef G files (NamedTuple p)
  = Raise (FileNotFoundError (ilut_path G (zfill 2 (str (S j))))).
Proof.
  intros Hj Hbefore Hmissing. unfold get_corr_coef.
  rewrite <- (take_drop_middle _ _ _ (band_nums_lookup G j Hj)), for_each_app.
  destruct (for_each_all_ok (get_corr_coef_body G files (NamedTuple p))
              (take j (band_nums G))) with (s := @nil (R * R)) as [acc ->].
  - intros band Hband acc. apply elem_of_take in Hband as (i & Hi & Hlt).
    rewrite (band_nums_lookup G i) in Hi by lia. injection Hi as <-.
    destruct (Hbefore i Hlt) as [t Ht].
    rewrite (get_corr_coef_body_namedtuple G files p acc _ t Ht). by eexists.
  - rewrite py_bind_ok. simpl.
    by rewrite (get_corr_coef_body_missing G files _ acc _ Hmissing).
Qed.

Lemma get_corr_coef_first_missing_file_witness :
  get_corr_coef (globals_src 0) files_2 (NamedTuple params_day1)
  = Raise (FileNotFoundError
             "./files/iLUTs/S2A_MSI/Continental/view_zenith_0/S2A_MSI_01.ilut").
Proof.
  apply (get_corr_coef_first_missing_file (globals_src 0) files_2 params_day1 0).
  - simpl. lia.
  - intros i Hi. lia.
  - reflexivity.
Defined.

(** X6. With at least one band, [get_corr_coef] rejects a dictionary of
    parameters: it raises [AttributeError] on [solar_z] as soon as the
    first table is loaded (or [FileNotFoundError] when that file is
    missing), and never returns coefficients. *)
Theorem get_corr_coef_rejects_dict (G : Globals) (files : gmap string iLUT)
    (d : gmap string R) :
  NO_OF_BANDS G ≠ 0%nat →
  (is_Some (files !! ilut_path G (zfill 2 (str 1))) →
   get_corr_coef G files (Dict d) = Raise (AttributeError "solar_z")) ∧
  (files !! ilut_path G (zfill 2 (str 1)) = None →
   get_corr_coef G files (Dict d)
   = Raise (FileNotFoundError (ilut_path G (zfill 2 (str 1))))) ∧
  ∀ coefs, get_corr_coef G files (Dict d) ≠ Ok coefs.
Proof.
  intros Hn. rewrite (get_corr_coef_dict G files d Hn).
  destruct (files !! ilut_path G (zfill 2 (str 1))) as [t|].
  - split; [done|]. split; [|done]. intros Hnone. discriminate Hnone.
  - split; [|split; done]. intros [t Ht]. discriminate Ht.
Qed.

Lemma get_corr_coef_rejects_dict_witness :
  (is_Some (files_2 !! ilut_path globals_2 (zfill 2 (str 1))) →
   get_corr_coef globals_2 files_2 (Dict atm_dict)
   = Raise (AttributeError "solar_z")) ∧
  (files_2 !! ilut_path globals_2 (zfill 2 (str 1)) = None →
   get_corr_coef globals_2 files_2 (Dict atm_dict)
   = Raise (FileNotFoundError (ilut_path globals_2 (zfill 2 (str 1))))) ∧
  ∀ coefs, get_corr_coef globals_2 files_2 (Dict atm_dict) ≠ Ok coefs.
Proof.
  apply (get_corr_coef_rejects_dict globals_2 files_2 atm_dict). discriminate.
Defined.

(** X7. [get_corr_coef] reads the band files and nothing else: two file
    stores that agree on the paths of the bands give the same result,
    list or exception, for every object. *)
Theorem get_corr_coef_reads_band_files (G : Globals)
    (files1 files2 : gmap string iLUT) (atmParams : PyObj) :
  (∀ band, band ∈ band_nums G →
           files1 !! ilut_path G band = files2 !! ilut_path G band) →
  get_corr_coef G files1 atmParams = get_corr_coef G files2 atmParams.
Proof.
  intros Hagree. unfold get_corr_coef. apply for_each_ext.
  intros acc band Hband. unfold get_corr_coef_body, load_ilut.
  by rewrite (Hagree band Hband).
Qed.

Lemma get_corr_coef_reads_band_files_witness :
  get_corr_coef globals_2 files_2 (NamedTuple params_day1)
  = get_corr_coef globals_2 (<[ "d/notes.txt" := table_2 ]> files_2)
      (NamedTuple params_day1).
Proof.
  apply (get_corr_coef_reads_band_files globals_2 files_2
           (<[ "d/notes.txt" := table_2 ]> files_2) (NamedTuple params_day1)).
  intros band Hband. change (band ∈ ["01"; "02"]) in Hband.
  apply elem_of_cons in Hband as [->|Hband]; [reflexivity|].
  apply elem_of_cons in Hband as [->|Hband]; [reflexivity|].
  by apply elem_of_nil in Hband.
Defined.

(** X8. Every pair [(a', b')] that [get_corr_coef] returns for a record
    at position [i] is the pair [(a, b)] of the table in the file of band
    [i + 1], both scaled by one factor [k] with [0.935 <= k <= 1.001],
    for any day of year; so [b'], by which the reflectance transform
    divides, is zero only when the table's [b] is. *)
Theorem get_corr_coef_pair_scaled (G : Globals) (files : gmap string iLUT)
    (p : AtmParams) (coefs : list (R * R)) (i : nat) (a' b' : R) :
  get_corr_coef G files (NamedTuple p) = Ok coefs →
  coefs !! i = Some (a', b') →
  ∃ (t : iLUT) (k : R),
    band_file G files (S i) t ∧
    0.935 <= k <= 1.001 ∧
    a' = (t (solar_z p) (h2o p) (o3 p) (aot p) (KM G)).1 * k ∧
    b' = (t (solar_z p) (h2o p) (o3 p) (aot p) (KM G)).2 * k ∧
    (b' = 0 ↔ (t (solar_z p) (h2o p) (o3 p) (aot p) (KM G)).2 = 0).
Proof.
  intros H Hi. apply get_corr_coef_loop_inv in H as (ts & Hts & ->).
  simpl in Hi. rewrite list_lookup_fmap in Hi.
  destruct (ts !! i) as [t|] eqn:Ht; [|discriminate].
  destruct (Forall2_lookup_r _ _ _ _ _ Hts Ht) as (band & Hband & Hfile).
  assert (i < NO_OF_BANDS G)%nat as Hlt.
  { rewrite <- (band_nums_length G). by eapply lookup_lt_Some. }
  rewrite (band_nums_lookup G i Hlt) in Hband. injection Hband as <-.
  exists t, (orbit_factor (doy p)).
  pose proof (orbit_factor_bounds (doy p)) as Hk.
  unfold scaled_pair in Hi. simpl in Hi.
  destruct (t (solar_z p) (h2o p) (o3 p) (aot p) (KM G)) as [a b].
  injection Hi as <- <-. simpl.
  repeat split; [exact Hfile | lra | lra | |].
  - intros Hz. apply Rmult_integral in Hz as [Hz|Hz]; [exact Hz | lra].
  - intros ->. lra.
Qed.

Lemma get_corr_coef_pair_scaled_witness :
  ∃ (t : iLUT) (k : R),
    band_file globals_2 files_2 2 t ∧
    0.935 <= k <= 1.001 ∧
    2 * orbit_factor 1 = (t 30 2 (3 / 10) (1 / 10) (1 / 2)).1 * k ∧
    4 * orbit_factor 1 = (t 30 2 (3 / 10) (1 / 10) (1 / 2)).2 * k ∧
    (4 * orbit_factor 1 = 0 ↔ (t 30 2 (3 / 10) (1 / 10) (1 / 2)).2 = 0).
Proof.
  apply (get_corr_coef_pair_scaled globals_2 files_2 params_day1
           (map (scaled_pair globals_2 params_day1) [table_1; table_2]) 1);
    reflexivity.
Defined.

(** ** The orbit factor over the year *)

Lemma PI_bounds : 3.1341 < PI < 3.1508.
Proof.
  pose proof (PI_2_3_7_ineq 1) as [Hlo Hhi].
  unfold sum_f_R0, tg_alt, PI_2_3_7_tg, Ratan_seq in Hlo, Hhi.
  simpl in Hlo, Hhi. split; lra.
Qed.

(** X9. The orbit correction falls from the start of the year to day
    187 and rises from day 188 to day 366: for two records with
    [doy p1 < doy p2] whose days both lie in [0, 187] the factor of [p2]
    is the smaller one, and when both lie in [188, 366] it is the larger
    one. *)
Theorem elliptical_orbit_correction_monotone (p1 p2 : AtmParams) :
  (doy p1 < doy p2)%Z →
  (0 <= doy p1 ∧ doy p2 <= 187)%Z ∨ (188 <= doy p1 ∧ doy p2 <= 366)%Z →
  ∃ k1 k2,
    elliptical_orbit_correction (NamedTuple p1) = Ok k1 ∧
    elliptical_orbit_correction (NamedTuple p2) = Ok k2 ∧
    ((doy p2 <= 187)%Z → k2 < k1) ∧
    ((188 <= doy p1)%Z → k1 < k2).
Proof.
  intros Hlt Hrange. exists (orbit_factor (doy p1)), (orbit_factor (doy p2)).
  split; [reflexivity|]. split; [reflexivity|].
  pose proof PI_bounds as [HPlo HPhi].
  assert (IZR (doy p1) < IZR (doy p2)) as Hlt' by by apply IZR_lt.
  unfold orbit_factor. split.
  - intros Hhi. assert (0 <= doy p1)%Z as Hlo by lia.
    apply IZR_le in Hlo, Hhi.
    assert (cos (IZR (doy p2) / 59.66638337) < cos (IZR (doy p1) / 59.66638337)).
    { apply cos_decreasing_1; lra. }
    lra.
  - intros Hlo. assert (doy p2 <= 366)%Z as Hhi by lia.
    apply IZR_le in Hlo, Hhi.
    assert (cos (IZR (doy p1) / 59.66638337) < cos (IZR (doy p2) / 59.66638337)).
    { apply cos_increasing_1; lra. }
    lra.
Qed.

Lemma elliptical_orbit_correction_monotone_witness :
  ∃ k1 k2,
    elliptical_orbit_correction (NamedTuple params_day1) = Ok k1 ∧
    elliptical_orbit_correction
      (NamedTuple (mkAtmParams 100 30 2 (3 / 10) (1 / 10))) = Ok k2 ∧
    ((100 <= 187)%Z → k2 < k1) ∧
    ((188 <= 1)%Z → k1 < k2).
Proof.
  apply (elliptical_orbit_correction_monotone params_day1
           (mkAtmParams 100 30 2 (3 / 10) (1 / 10))).
  - simpl. lia.
  - left. simpl. lia.
Defined.

(** ** The radiance multiplier *)

Lemma earth_sun_distance_bounds (x : R) :
  0.98328 <= 1 - 0.01672 * cos x <= 1.01672.
Proof. pose proof (COS_bound x) as [Hlo Hhi]. split; lra. Qed.

(** X10. For a positive solar irradiance and a zenith angle from 0 up
    to, but not including, 90 degrees, [toa_to_rad_multiplier] returns a
    positive multiplier, whatever the day of year. *)
Theorem toa_to_rad_multiplier_positive (bandname : string)
    (imageInfo atm : gmap string R) (esun sz dy : R) :
  imageInfo !! ("SOLAR_IRRADIANCE_" +:+ bandname) = Some esun →
  atm !! "solar_z" = Some sz →
  atm !! "doy" = Some dy →
  0 < esun →
  0 <= sz < 90 →
  ∃ m, toa_to_rad_multiplier bandname imageInfo (Dict atm) = Ok m ∧ 0 < m.
Proof.
  intros Hesun Hsz Hdy Hpos [Hlo Hhi].
  unfold toa_to_rad_multiplier, dict_get, getitem. rewrite Hesun, Hsz, Hdy.
  eexists. split; [reflexivity|].
  pose proof PI_RGT_0 as HPI.
  pose proof (earth_sun_distance_bounds (0.9856 * (dy - 4))) as [Hd _].
  assert (0 < cos (radians sz)) as Hcos.
  { apply cos_gt_0; unfold radians; nra. }
  apply Rdiv_lt_0_compat; [nra|].
  apply Rmult_lt_0_compat; [exact HPI|]. nra.
Qed.

Lemma toa_to_rad_multiplier_positive_witness :
  ∃ m, toa_to_rad_multiplier "B1" info_2 (Dict atm_dict) = Ok m ∧ 0 < m.
Proof.
  apply (toa_to_rad_multiplier_positive "B1" info_2 atm_dict 1959 30 (IZR 1));
    [reflexivity | reflexivity | reflexivity | lra | lra].
Defined.

(** X11. Whenever [toa_to_rad_multiplier] returns, the Earth-Sun
    distance it divides by is at least 0.98328, so the divisor is never
    zero and the multiplier is at most the irradiance over
    [PI * 0.98328 ^ 2] in absolute value. *)
Theorem toa_to_rad_multiplier_bounded (bandname : string)
    (imageInfo : gmap string R) (atmParams : PyObj) (m : R) :
  toa_to_rad_multiplier bandname imageInfo atmParams = Ok m →
  ∃ esun, imageInfo !! ("SOLAR_IRRADIANCE_" +:+ bandname) = Some esun ∧
          Rabs m <= Rabs esun / (PI * 0.98328 ^ 2).
Proof.
  unfold toa_to_rad_multiplier, dict_get, getitem.
  destruct (imageInfo !! ("SOLAR_IRRADIANCE_" +:+ bandname)) as [esun|];
    [|discriminate].
  destruct atmParams as [p|d]; [discriminate|].
  destruct (d !! "solar_z") as [sz|]; [|discriminate].
  destruct (d !! "doy") as [dy|]; [|discriminate].
  rewrite !py_bind_ok. intros [= <-]. exists esun. split; [reflexivity|].
  pose proof PI_RGT_0 as HPI.
  pose proof (earth_sun_distance_bounds (0.9856 * (dy - 4))) as [Hd _].
  pose proof (COS_bound (radians sz)) as [Hclo Hchi].
  set (dist := 1 - 0.01672 * cos (0.9856 * (dy - 4))) in *.
  set (c := cos (radians sz)) in *.
  assert (0 < PI * 0.98328 ^ 2) as HD0 by nra.
  assert (0.98328 ^ 2 <= dist ^ 2) as Hsq.
  { apply pow_incr. lra. }
  assert (PI * 0.98328 ^ 2 <= PI * dist ^ 2) as HD.
  { apply Rmult_le_compat_l; lra. }
  assert (0 < PI * dist ^ 2) as HDpos by lra.
  unfold Rdiv. rewrite Rabs_mult, Rabs_mult, (Rabs_pos_eq (/ _)).
  2:{ left. by apply Rinv_0_lt_compat. }
  assert (Rabs c <= 1) as Hc by (apply Rabs_le; lra).
  assert (/ (PI * dist ^ 2) <= / (PI * 0.98328 ^ 2)) as Hinv.
  { by apply Rinv_le_contravar. }
  assert (0 < / (PI * dist ^ 2)) as Hinvpos by by apply Rinv_0_lt_compat.
  pose proof (Rabs_pos esun) as He. pose proof (Rabs_pos c) as Hcp.
  apply Rmult_le_compat; [nra | left; exact Hinvpos | nra | exact Hinv].
Qed.

Lemma toa_to_rad_multiplier_bounded_witness :
  ∃ esun, info_2 !! ("SOLAR_IRRADIANCE_" +:+ "B1") = Some esun ∧
          Rabs (let d := 1 - 0.01672 * cos (0.9856 * (IZR 1 - 4)) in
                1959 * cos (radians 30) / (PI * d ^ 2))
          <= Rabs esun / (PI * 0.98328 ^ 2).
Proof.
  apply (toa_to_rad_multiplier_bounded "B1" info_2 (Dict atm_dict)).
  reflexivity.
Defined.

(** ** The export branch and the end of the script *)

(** X12. With at least one band, [atm_corr_band] never returns an
    image, whether its parameters are a named tuple or a dictionary: it
    reads them as attributes in [get_corr_coef] and as subscripts in
    [toa_to_rad_multiplier]. *)
Theorem atm_corr_band_never_returns (G : Globals) (files : gmap string iLUT)
    (blank image : Image) (imageInfo : gmap string R) (atmParams : PyObj) :
  NO_OF_BANDS G ≠ 0%nat →
  ∃ e, atm_corr_band G files blank image imageInfo atmParams = Raise e ∧
       ∀ img, atm_corr_band G files blank image imageInfo atmParams ≠ Ok img.
Proof.
  intros Hn.
  destruct (atm_corr_band_raises G files blank image imageInfo atmParams Hn)
    as [e He].
  exists e. split; [exact He|]. intros img. rewrite He. discriminate.
Qed.

Lemma atm_corr_band_never_returns_witness :
  ∃ e, atm_corr_band globals_2 files_2 [] image_2 info_2 (Dict atm_dict) = Raise e ∧
       ∀ img, atm_corr_band globals_2 files_2 [] image_2 info_2 (Dict atm_dict)
              ≠ Ok img.
Proof.
  apply (atm_corr_band_never_returns globals_2 files_2 [] image_2 info_2
           (Dict atm_dict)).
  discriminate.
Defined.

Lemma atm_corr_band_body_typeerror old_image bandnames info p coefs new_image ii name v :
  bandnames !! ii = Some name →
  info !! ("SOLAR_IRRADIANCE_" +:+ name) = Some v →
  atm_corr_band_body old_image bandnames info (NamedTuple p) coefs new_image ii
  = Raise TypeError.
Proof.
  intros Hname Hv. unfold atm_corr_band_body, list_index.
  rewrite Hname, py_bind_ok.
  by rewrite (toa_to_rad_multiplier_namedtuple name info p v Hv).
Qed.

Lemma atm_corr_band_typeerror G files blank image info p coefs name v :
  NO_OF_BANDS G ≠ 0%nat →
  get_corr_coef G files (NamedTuple p) = Ok coefs →
  Image_bandNames image !! 0%nat = Some name →
  info !! ("SOLAR_IRRADIANCE_" +:+ name) = Some v →
  atm_corr_band G files blank image info (NamedTuple p) = Raise TypeError.
Proof.
  intros Hn Hc Hname Hv. unfold atm_corr_band. rewrite Hc, py_bind_ok.
  destruct (NO_OF_BANDS G) as [|n]; [done|]. cbn [seq for_each].
  rewrite (atm_corr_band_body_typeerror _ _ info p coefs blank 0 name v);
    [reflexivity | | exact Hv].
  unfold Image_divide. by rewrite Image_bandNames_map.
Qed.

(** X13. With [EXPORT] set and at least one band, a batch whose first
    scene gets its coefficients, has a first band and carries that
    band's solar irradiance ends in [TypeError] on that scene: nothing is
    reported, however many scenes follow. *)
Theorem main_export_typeerror (G : Globals) (E : Env) (scene : Scene)
    (coefs : list (R * R)) (name : string) (v : R) :
  NO_OF_BANDS G ≠ 0%nat →
  S2List E !! 0%nat = Some scene →
  scene_coeffs G E scene coefs →
  Image_bandNames (raster scene) !! 0%nat = Some name →
  properties scene !! ("SOLAR_IRRADIANCE_" +:+ name) = Some v →
  main G E true = Raise TypeError.
Proof.
  intros Hn Hscene (p & Hp & Hc) Hname Hv.
  assert (driver_body G E true init_state 0 = Raise TypeError) as Hbody.
  { unfold driver_body, ee_List_get.
    rewrite Hscene, py_bind_ok, Hp, py_bind_ok, Hc, py_bind_ok.
    by rewrite (atm_corr_band_typeerror G _ _ _ _ p coefs name v Hn Hc Hname Hv). }
  unfold main, batch_loop, NO_OF_IMAGES.
  destruct (length (S2List E)) as [|n] eqn:Hlen.
  - apply lookup_lt_Some in Hscene. lia.
  - cbn [seq for_each]. by rewrite Hbody.
Qed.

Lemma main_export_typeerror_witness :
  main globals_2 env_2 true = Raise TypeError.
Proof.
  apply (main_export_typeerror globals_2 env_2 scene_a
           (map (scaled_pair globals_2 params_a) [table_1; table_2]) "B1" 1959).
  - discriminate.
  - reflexivity.
  - exists params_a. split; reflexivity.
  - reflexivity.
  - reflexivity.
Defined.

(** X14. On an empty batch the script raises [NameError] for [EXPORT],
    which only the loop body assigns, and writes no report, whatever the
    setting of the flag. *)
Theorem main_empty_batch (G : Globals) (E : Env) (flag : bool) :
  S2List E = [] →
  main G E flag = Raise (NameError "EXPORT").
Proof.
  intros HS. unfold main, batch_loop, NO_OF_IMAGES. by rewrite HS.
Qed.

Lemma main_empty_batch_witness :
  main globals_2 (env_of [] files_2) false = Raise (NameError "EXPORT").
Proof. apply (main_empty_batch globals_2 (env_of [] files_2) false). reflexivity. Defined.

(** X15. A report written without export is rectangular: it has one
    entry per scene of a non-empty batch, every entry has [NO_OF_BANDS]
    pairs, no corrected image is kept and no export task is started. *)
Theorem main_report_shape (G : Globals) (E : Env) (out : Output) :
  main G E false = Ok out →
  S2List E ≠ [] ∧
  length (report out) = length (S2List E) ∧
  Forall (fun coefs => length coefs = NO_OF_BANDS G) (report out) ∧
  final_images out = [] ∧
  started out = [].
Proof.
  unfold main. intros H.
  destruct (batch_loop G E false) as [st|] eqn:Hloop; [|discriminate].
  rewrite py_bind_ok in H.
  split.
  { intros HS. unfold batch_loop, NO_OF_IMAGES in Hloop. rewrite HS in Hloop.
    simpl in Hloop. injection Hloop as <-. discriminate H. }
  destruct (EXPORT st) as [b|] eqn:Hexp; [|discriminate].
  rewrite py_bind_ok in H. injection H as <-. simpl.
  assert (b = false) as ->.
  { unfold batch_loop, NO_OF_IMAGES in Hloop.
    destruct (S2List E) as [|s scenes]; simpl in Hloop.
    - injection Hloop as <-. discriminate Hexp.
    - destruct (driver_body G E false init_state 0) as [st1|] eqn:Hb;
        [|discriminate].
      rewrite py_bind_ok in Hloop.
      assert (∀ m k s1 s2, EXPORT s1 = Some false →
                for_each (driver_body G E false) s1 (seq k m) = Ok s2 →
                EXPORT s2 = Some false) as Hkeep.
      { induction m as [|m IH]; intros k s1 s2 Hs1 Hrun; simpl in Hrun.
        - by injection Hrun as <-.
        - destruct (driver_body G E false s1 k) as [s1'|] eqn:Hb'; [|discriminate].
          rewrite py_bind_ok in Hrun.
          apply driver_body_inv in Hb' as (_ & _ & _ & _ & _ & He & _).
          by apply (IH (S k) s1' s2). }
      apply driver_body_inv in Hb as (_ & _ & _ & _ & _ & He & _).
      specialize (Hkeep _ _ _ _ He Hloop). congruence. }
  unfold batch_loop, NO_OF_IMAGES in Hloop.
  apply driver_loop_inv in Hloop as (coefs & imgs & Hcoefs & Hcl & Hci & -> & Hel).
  rewrite drop_0, firstn_all in Hcoefs.
  rewrite Hcl, Hci. simpl. repeat split.
  - symmetry. by eapply Forall2_length.
  - clear -Hcoefs. induction Hcoefs as [|s c ss cs (p & _ & Hc) _ IH];
      constructor; [|exact IH].
    apply get_corr_coef_loop_inv in Hc as (ts & Hts & ->).
    simpl. rewrite length_map, <- (Forall2_length _ _ _ Hts).
    apply band_nums_length.
Qed.

Lemma main_report_shape_witness :
  [scene_a; scene_b] ≠ [] ∧
  length coeffs_2 = 2%nat ∧
  Forall (fun coefs => length coefs = 2%nat) coeffs_2 ∧
  @nil EEElement = [] ∧
  @nil Task = [].
Proof.
  apply (main_report_shape globals_2 env_2 (mkOutput coeffs_2 [] [])).
  reflexivity.
Defined.

Lemma driver_body_fails G E st k scene e :
  S2List E !! k = Some scene →
  scene_fails G E scene e →
  driver_body G E false st k = Raise e.
Proof.
  intros Hk Hfail. unfold driver_body, ee_List_get. rewrite Hk, py_bind_ok.
  destruct Hfail as [Hp | (p & Hp & Hc)].
  - by rewrite Hp.
  - by rewrite Hp, py_bind_ok, Hc.
Qed.

(** The iterations [k, k + m) without export, when each of their scenes
    gets its coefficients. *)
Lemma driver_loop_no_export_range G E : ∀ m k st coefs,
  length coefs = m →
  Forall2 (scene_coeffs G E) (take m (drop k (S2List E))) coefs →
  for_each (driver_body G E false) st (seq k m)
  = Ok (mkDriverState (corrected_images st) (export_list st)
          (coeff_list st ++ coefs)
          (match m with O => EXPORT st | S _ => Some false end)).
Proof.
  induction m as [|m IH]; intros k st coefs Hlen H.
  - destruct coefs; [|discriminate]. simpl. rewrite app_nil_r. by destruct st.
  - destruct coefs as [|c coefs]; [discriminate|].
    destruct (drop k (S2List E)) as [|scene rest] eqn:Hdrop;
      [inversion H|].
    assert (S2List E !! k = Some scene) as Hk.
    { rewrite <- (Nat.add_0_r k), <- lookup_drop, Hdrop. reflexivity. }
    simpl in H. apply Forall2_cons in H as [Hsc Hrest].
    assert (rest = drop (S k) (S2List E)) as ->.
    { rewrite (drop_S _ _ _ Hk) in Hdrop. congruence. }
    cbn [seq for_each].
    rewrite (driver_body_no_export G E st k scene c Hk Hsc), py_bind_ok.
    rewrite (IH (S k) _ coefs); [|by injection Hlen|exact Hrest].
    simpl. rewrite <- app_assoc. simpl. by destruct m.
Qed.

(** X16. Without export, the script stops at the first scene whose
    coefficients cannot be computed: if the scenes before position [i]
    get their coefficients and the retrieval of parameters or
    [get_corr_coef] raises [e] for scene [i], the script raises [e] and
    writes no report, not even for the scenes already processed. *)
Theorem main_aborts_at_first_failure (G : Globals) (E : Env) (i : nat)
    (scene : Scene) (e : PyError) (coefs : list (list (R * R))) :
  S2List E !! i = Some scene →
  Forall2 (scene_coeffs G E) (take i (S2List E)) coefs →
  scene_fails G E scene e →
  main G E false = Raise e.
Proof.
  intros Hi Hbefore Hfail. unfold main, batch_loop, NO_OF_IMAGES.
  pose proof (lookup_lt_Some _ _ _ Hi) as Hlt.
  replace (length (S2List E)) with (i + S (length (S2List E) - S i))%nat by lia.
  rewrite seq_app, for_each_app.
  rewrite (driver_loop_no_export_range G E i 0 init_state coefs).
  - rewrite py_bind_ok. cbn [Nat.add seq for_each].
    by rewrite (driver_body_fails G E _ i scene e Hi Hfail).
  - rewrite <- (Forall2_length _ _ _ Hbefore), length_take. lia.
  - by rewrite drop_0.
Qed.

Lemma main_aborts_at_first_failure_witness :
  main globals_2 (env_of [scene_a; scene_no_zenith] files_2) false
  = Raise (KeyError "MEAN_SOLAR_ZENITH_ANGLE").
Proof.
  apply (main_aborts_at_first_failure globals_2
           (env_of [scene_a; scene_no_zenith] files_2) 1 scene_no_zenith
           (KeyError "MEAN_SOLAR_ZENITH_ANGLE")
           [map (scaled_pair globals_2 params_a) [table_1; table_2]]).
  - reflexivity.
  - constructor; [|constructor]. exists params_a. split; reflexivity.
  - left. reflexivity.
Defined.

(** ** The band loop of [atm_corr_band] *)

Lemma Image_select_absent (image : list (string * list R)) (name : string) :
  name ∉ Image_bandNames image → Image_select image name = [].
Proof.
  unfold Image_select, Image_bandNames.
  induction image as [|b image IH]; intros Hnotin; [reflexivity|].
  simpl in Hnotin. apply not_elem_of_cons in Hnotin as [Hne Hnotin].
  rewrite filter_cons, decide_False by done. by apply IH.
Qed.

Lemma Image_select_unique (image : list (string * list R)) (ii : nat)
    (band : string * list R) :
  NoDup (Image_bandNames image) →
  image !! ii = Some band →
  Image_select image band.1 = [band].
Proof.
  revert ii. induction image as [|b image IH]; intros ii Hnd Hii; [discriminate|].
  unfold Image_bandNames in Hnd. simpl in Hnd.
  apply NoDup_cons in Hnd as [Hnotin Hnd].
  unfold Image_select. rewrite filter_cons. destruct ii as [|ii]; simpl in Hii.
  - injection Hii as ->. rewrite decide_True by done. f_equal.
    by apply Image_select_absent.
  - rewrite decide_False.
    + by apply (IH ii).
    + intros Heq. apply Hnotin. rewrite Heq.
      apply list_elem_of_fmap_2. by eapply list_elem_of_lookup_2.
Qed.

(** One completed iteration appends one band: the source band of index
    [ii], transformed. *)
Lemma atm_corr_band_body_inv (image : list (string * list R)) info atm coefs
    (new_image img : list (string * list R)) (ii : nat) :
  NoDup (Image_bandNames image) →
  atm_corr_band_body (Image_divide image 10000)
    (Image_bandNames (Image_divide image 10000)) info atm coefs new_image ii
  = Ok img →
  ∃ name pixels m a b,
    image !! ii = Some (name, pixels) ∧
    toa_to_rad_multiplier name info atm = Ok m ∧
    coefs !! ii = Some (a, b) ∧
    img = new_image ++ [(name, map (fun toa => (toa / 10000 * m - a) / b) pixels)].
Proof.
  intros Hnd.
  assert (Image_bandNames (Image_divide image 10000) = Image_bandNames image)
    as -> by (unfold Image_divide; apply Image_bandNames_map).
  unfold atm_corr_band_body, list_index, Image_bandNames.
  rewrite list_lookup_fmap.
  destruct (image !! ii) as [[name pixels]|] eqn:Hii; [|discriminate].
  cbn -[surface_refl Image_divide toa_to_rad_multiplier].
  destruct (toa_to_rad_multiplier name info atm) as [m|] eqn:Hm; [|discriminate].
  cbn -[surface_refl Image_divide].
  destruct (coefs !! ii) as [[a b]|] eqn:Hab; [|discriminate].
  cbn -[surface_refl Image_divide].
  intros [= <-]. exists name, pixels, m, a, b.
  split; [reflexivity|]. split; [exact Hm|]. split; [reflexivity|].
  unfold Image_addBands. rewrite surface_refl_pixels.
  pose proof (Image_select_unique image ii (name, pixels) Hnd Hii) as Hsel.
  simpl in Hsel. by rewrite Hsel.
Qed.

Lemma atm_corr_band_loop_inv (image : list (string * list R)) info atm coefs :
  NoDup (Image_bandNames image) →
  ∀ n k (acc img : list (string * list R)),
    for_each (atm_corr_band_body (Image_divide image 10000)
                (Image_bandNames (Image_divide image 10000)) info atm coefs)
             acc (seq k n) = Ok img →
    ∃ added : list (string * list R),
      img = acc ++ added ∧
      length added = n ∧
      Forall2 (fun src out => out.1 = src.1 ∧ length out.2 = length src.2)
              (take n (drop k image)) added.
Proof.
  intros Hnd. induction n as [|n IH]; intros k acc img H.
  - simpl in H. injection H as <-. exists []. rewrite app_nil_r.
    repeat split. constructor.
  - cbn [seq for_each] in H.
    destruct (atm_corr_band_body _ _ info atm coefs acc k) as [acc'|] eqn:Hb;
      [|discriminate].
    rewrite py_bind_ok in H.
    apply (atm_corr_band_body_inv image) in Hb
      as (name & pixels & m & a & b & Hk & _ & _ & ->); [|exact Hnd].
    apply IH in H as (added & -> & Hlen & Hadded).
    eexists (_ :: added). split; [by rewrite <- app_assoc|].
    split; [simpl; by rewrite Hlen|].
    rewrite (drop_S _ _ _ Hk). simpl. constructor; [|exact Hadded].
    simpl. by rewrite length_map.
Qed.

(** X18. When the band loop of [atm_corr_band] completes on an image
    whose band names are distinct, it has kept the bands of the image it
    started from and appended one band per index [0 .. n - 1], in that
    order, each under the name and with the pixel count of the source
    band of the same index. *)
Theorem atm_corr_band_loop_bands (image : list (string * list R))
    (imageInfo : gmap string R) (atmParams : PyObj)
    (cor_coeff_list : list (R * R)) (new_image img : list (string * list R))
    (n : nat) :
  NoDup (Image_bandNames image) →
  for_each (atm_corr_band_body (Image_divide image 10000)
              (Image_bandNames (Image_divide image 10000))
              imageInfo atmParams cor_coeff_list)
           new_image (seq 0 n) = Ok img →
  ∃ added : list (string * list R),
    img = new_image ++ added ∧
    length added = n ∧
    Image_bandNames added = take n (Image_bandNames image) ∧
    Forall2 (fun src out => length out.2 = length src.2) (take n image) added.
Proof.
  intros Hnd H.
  apply (atm_corr_band_loop_inv image _ _ _ Hnd) in H
    as (added & -> & Hlen & Hadded).
  rewrite drop_0 in Hadded. exists added. repeat split; [exact Hlen| |].
  - unfold Image_bandNames. rewrite <- fmap_take.
    clear -Hadded. induction Hadded as [|src out srcs outs [Hname _] _ IH];
      [reflexivity|].
    simpl. by rewrite Hname, IH.
  - eapply Forall2_impl; [exact Hadded|]. by intros src out [_ Hl].
Qed.

Lemma atm_corr_band_loop_bands_witness :
  ∃ added : list (string * list R),
    surface_refl (Image_divide image_2 10000) "B1"
      (let d := 1 - 0.01672 * cos (0.9856 * (IZR 1 - 4)) in
       1959 * cos (radians 30) / (PI * d ^ 2)) 1 2
    ++ surface_refl (Image_divide image_2 10000) "B2"
      (let d := 1 - 0.01672 * cos (0.9856 * (IZR 1 - 4)) in
       1824 * cos (radians 30) / (PI * d ^ 2)) 3 4
    = [] ++ added ∧
    length added = 2%nat ∧
    Image_bandNames added = take 2 (Image_bandNames image_2) ∧
    Forall2 (fun src out => length out.2 = length src.2) (take 2 image_2) added.
Proof.
  apply (atm_corr_band_loop_bands image_2 info_2 (Dict atm_dict)
           [(1, 2); (3, 4)] []).
  - apply (bool_decide_unpack _). vm_compute. reflexivity.
  - reflexivity.
Defined.
